(** * FORCE 2020 well map dashboard: curve availability and well selection

    A shallow embedding of the two pieces of logic of
    [notebooks/03-Map-Dash.ipynb]:

    - the loop that adds to [locations_df] one boolean column per curve,
      computed by [well_has_curve] from the measurement table;
    - the callback [update_output], which filters [locations_df] by required
      curves, by dataset and by the wells picked on the map, and renders the
      remaining well names as a Python list literal.

    A pandas data frame is a list of rows together with the list of its column
    labels; selecting a label that is not a column raises [KeyError], indexing
    an empty list raises [IndexError].  Both are kept, in a small error
    monad. *)

From Stdlib Require Import List String Ascii Bool Arith Lia Permutation.
From Stdlib Require Import DecimalString DecimalNat.
Import ListNotations.
Open Scope string_scope.
Open Scope list_scope.

Set Implicit Arguments.

(** ** Exceptions and the error monad *)

Inductive exn : Type :=
| KeyError (key : string)
| IndexError.

Inductive result (A : Type) : Type :=
| Ok (a : A)
| Raise (e : exn).

Arguments Ok {A} a.
Arguments Raise {A} e.

Definition bind {A B : Type} (m : result A) (k : A -> result B) : result B :=
  match m with
  | Ok a => k a
  | Raise e => Raise e
  end.

Notation "x <- m ;; k" := (bind m (fun x => k))
  (at level 61, m at next level, right associativity).

Fixpoint mapM {A B : Type} (f : A -> result B) (l : list A) : result (list B) :=
  match l with
  | [] => Ok []
  | a :: l' => b <- f a ;; bs <- mapM f l' ;; Ok (b :: bs)
  end.

Fixpoint foldM {A S : Type} (f : S -> A -> result S) (s : S) (l : list A)
  : result S :=
  match l with
  | [] => Ok s
  | a :: l' => s' <- f s a ;; foldM f s' l'
  end.

(** ** Frames *)

(** [x in labels], on strings. *)
Definition mem (x : string) (l : list string) : bool :=
  existsb (String.eqb x) l.

(** [Series.isin(values)]: one boolean per element. *)
Definition isin (series values : list string) : list bool :=
  map (fun x => mem x values) series.

(** [frame[mask]]: the rows whose mask entry is [True], in the frame's order. *)
Fixpoint bool_index {A : Type} (frame : list A) (mask : list bool) : list A :=
  match frame, mask with
  | r :: frame', b :: mask' =>
      if b then r :: bool_index frame' mask' else bool_index frame' mask'
  | _, _ => []
  end.

(** [ndarray.all(axis=1)] of a two-dimensional boolean array. *)
Definition all_axis1 (values : list (list bool)) : list bool :=
  map (forallb (fun b => b)) values.

(** The first label of [labels] that is not a column, if any. *)
Definition missing_label (columns labels : list string) : option string :=
  find (fun c => negb (mem c columns)) labels.

Section Measurements.

(** The type of a reading that is present; a missing one (NaN) is [None]. *)
Variable V : Type.

(** A row of [well_data_df]: the well name and the cell of each curve. *)
Record Sample : Type := {
  sWELL : string;
  reading : string -> option V
}.

(** [well_data_df]: its curve columns and its rows. *)
Record DataFrame : Type := {
  data_columns : list string;
  samples : list Sample
}.

(** A row of [locations_df]: the well name, its dataset ('Train' or 'Test')
    and its cell in each boolean curve column. *)
Record WellRecord : Type := {
  WELL : string;
  Dataset : string;
  has : string -> bool
}.

(** [locations_df]: its boolean curve columns and its rows. *)
Record Locations : Type := {
  columns : list string;
  rows : list WellRecord
}.

Definition isnull (cell : option V) : bool :=
  match cell with
  | None => true
  | Some _ => false
  end.

(** [data_df.loc[mask, curve]]. *)
Definition loc (data_df : DataFrame) (mask : list bool) (curve : string)
  : result (list (option V)) :=
  if mem curve (data_columns data_df)
  then Ok (map (fun s => reading s curve) (bool_index (samples data_df) mask))
  else Raise (KeyError curve).

(** [[
    def well_has_curve(row, data_df, curve):
        well_name = row['WELL']
        return not data_df.loc[data_df['WELL']==well_name, curve].isnull().all()
    ]] *)
Definition well_has_curve (row : WellRecord) (data_df : DataFrame)
    (curve : string) : result bool :=
  let well_name := WELL row in
  cells <- loc data_df
             (map (fun s => String.eqb (sWELL s) well_name) (samples data_df))
             curve ;;
  Ok (negb (forallb (fun b => b) (map isnull cells))).

(** [row[curve] = value]. *)
Definition set_cell (row : WellRecord) (curve : string) (value : bool)
  : WellRecord :=
  {| WELL := WELL row;
     Dataset := Dataset row;
     has := fun c => if String.eqb c curve then value else has row c |}.

(** [frame[curve] = series]: the column is overwritten, or appended when it
    is new; the series has one value per row. *)
Fixpoint set_rows (rs : list WellRecord) (curve : string) (series : list bool)
  : list WellRecord :=
  match rs, series with
  | r :: rs', b :: series' => set_cell r curve b :: set_rows rs' curve series'
  | _, _ => []
  end.

Definition setitem (frame : Locations) (curve : string) (series : list bool)
  : Locations :=
  {| columns := if mem curve (columns frame) then columns frame
                else columns frame ++ [curve];
     rows := set_rows (rows frame) curve series |}.

(** The body of the loop over [curves]:
    [[
    locations_df[curve] = locations_df.apply(
        lambda row: well_has_curve(row, well_data_df, curve), axis=1)
    ]]
    [apply] calls the function on each row in turn and collects the values
    in a series.  This is its behaviour on a table that has rows; pandas
    treats a table without rows apart, and the theorem about this loop is
    stated for a table with at least one well. *)
Definition add_curve (well_data_df : DataFrame) (locations_df : Locations)
    (curve : string) : result Locations :=
  series <- mapM (fun row => well_has_curve row well_data_df curve)
                 (rows locations_df) ;;
  Ok (setitem locations_df curve series).

(** [for curve in curves: ...] *)
Definition add_curves (curves : list string) (well_data_df : DataFrame)
    (locations_df : Locations) : result Locations :=
  foldM (add_curve well_data_df) locations_df curves.

End Measurements.

(** The catalog of the notebook. *)
Definition curves : list string :=
  ["FORMATION"; "CALI"; "RSHA"; "RMED"; "RDEP"; "RHOB"; "GR"; "SGR";
   "NPHI"; "PEF"; "DTC"; "SP"; "BS"; "ROP"; "DTS"; "DCAL"; "DRHO";
   "MUDWEIGHT"; "RMIC"; "ROPA"; "RXO"].

(** ** The selection callback *)

(** A point of the map's [selectedData]; Plotly puts the hover columns in
    [customdata], the well name first. *)
Record Point : Type := {
  customdata : list string
}.

(** The [selectedData] property of the map: [{'points': [...], ...}]. *)
Record SelectedData : Type := {
  points : list Point
}.

(** [l[0]]. *)
Definition getitem0 (l : list string) : result string :=
  match l with
  | [] => Raise IndexError
  | x :: _ => Ok x
  end.

(** [frame[labels].values]: one row of booleans per well, one entry per
    label, in the order of [labels]. *)
Definition getitem_values (frame : Locations) (labels : list string)
  : result (list (list bool)) :=
  match missing_label (columns frame) labels with
  | Some c => Raise (KeyError c)
  | None => Ok (map (fun r => map (has r) labels) (rows frame))
  end.

(** [[p['customdata'][0] for p in selected_item['points']]]. *)
Definition point_wells (pts : list Point) : result (list string) :=
  mapM (fun p => getitem0 (customdata p)) pts.

(** The [if selected_items is not None: for selected_item in [selected_items]]
    block: [lasso_wells] stays [None] unless the event has points. *)
Definition lasso (selected_items : option SelectedData)
  : result (option (list string)) :=
  match selected_items with
  | None => Ok None
  | Some selected_item =>
      match points selected_item with
      | [] => Ok None
      | pts =>
          names <- point_wells pts ;;
          Ok (Some names)
      end
  end.

(** [lasso_wells if lasso_wells else all_wells]: [None] and the empty list are
    both false. *)
Definition lasso_or_all (lasso_wells : option (list string))
    (all_wells : list string) : list string :=
  match lasso_wells with
  | Some (w :: ws) => w :: ws
  | _ => all_wells
  end.

(** [update_output] up to [dff = dff[select_mask]]: the filtered frame. *)
Definition selected_frame (locations_df : Locations)
    (curves datasets : list string) (selected_items : option SelectedData)
  : result (list WellRecord) :=
  values <- getitem_values locations_df curves ;;
  let curve_mask := all_axis1 values in
  let dff := bool_index (rows locations_df) curve_mask in
  let dff := bool_index dff (isin (map Dataset dff) datasets) in
  let all_wells := map WELL dff in
  lasso_wells <- lasso selected_items ;;
  let select_mask := isin (map WELL dff) (lasso_or_all lasso_wells all_wells) in
  Ok (bool_index dff select_mask).

(** ["{}".format(n)] for a count. *)
Definition format_nat (n : nat) : string :=
  NilZero.string_of_uint (Nat.to_uint n).

Definition nl : string := String "010" "".

(** ["'{}'".format(well_name)]. *)
Definition quoted (well_name : string) : string :=
  "'" ++ well_name ++ "'".

Definition output_text (num_wells : nat) : string :=
  nl ++ "You have selected " ++ format_nat num_wells ++ " wells." ++ nl ++ nl.

Definition well_list_text (well_names : list string) : string :=
  "selected_wells = [" ++ String.concat ", " (map quoted well_names) ++ "]".

(** The rest of [update_output]: the count and the names are both read off the
    filtered frame. *)
Definition render (dff : list WellRecord) : string :=
  let num_wells := List.length dff in
  let well_names := map WELL dff in
  output_text num_wells ++ well_list_text well_names.

Definition update_output (locations_df : Locations)
    (curves datasets : list string) (selected_items : option SelectedData)
  : result string :=
  dff <- selected_frame locations_df curves datasets selected_items ;;
  Ok (render dff).

(** The well names [update_output] renders ([dff['WELL'].values]). *)
Definition selected_wells (locations_df : Locations)
    (curves datasets : list string) (selected_items : option SelectedData)
  : result (list string) :=
  dff <- selected_frame locations_df curves datasets selected_items ;;
  Ok (map WELL dff).

(** ** Vocabulary of the statements *)

Section Readings.

Variable V : Type.
Variable well_data_df : DataFrame V.

(** Some sample of well [w] has a reading of curve [c]. *)
Definition has_reading (w c : string) : Prop :=
  exists s v,
    In s (samples well_data_df) /\ sWELL s = w /\ reading s c = Some v.

(** The same, computed. *)
Definition present (w c : string) : bool :=
  existsb (fun s => String.eqb (sWELL s) w && negb (isnull (reading s c)))
          (samples well_data_df).

(** What the loop over [curves] leaves in one row. *)
Definition flagged (curves : list string) (row : WellRecord) : WellRecord :=
  fold_left (fun r c => set_cell r c (present (WELL r) c)) curves row.

End Readings.

(** The wells that pass the curve and dataset filters. *)
Definition qualifies (curves datasets : list string) (r : WellRecord) : bool :=
  forallb (has r) curves && mem (Dataset r) datasets.

(** The rows of [dff] that the last mask keeps. *)
Definition keep (lasso_wells : option (list string)) (dff : list WellRecord)
  : list WellRecord :=
  filter (fun r => mem (WELL r) (lasso_or_all lasso_wells (map WELL dff))) dff.

(** The same mask, row by row: a lasso with names keeps the named wells, no
    lasso keeps every row. *)
Definition chosen (lasso_wells : option (list string)) (r : WellRecord) : bool :=
  match lasso_wells with
  | Some (w :: ws) => mem (WELL r) (w :: ws)
  | _ => true
  end.

(** A selection event whose points carry the given well names. *)
Definition selection (names : list string) : option SelectedData :=
  Some {| points := map (fun w => {| customdata := [w] |}) names |}.

(** [s] is [l] with some elements removed. *)
Inductive Subseq {A : Type} : list A -> list A -> Prop :=
| Subseq_nil : Subseq [] []
| Subseq_skip : forall x s l, Subseq s l -> Subseq s (x :: l)
| Subseq_keep : forall x s l, Subseq s l -> Subseq (x :: s) (x :: l).

(** The two-well table of the examples. *)
Definition well (name dataset : string) (flags : list string) : WellRecord :=
  {| WELL := name; Dataset := dataset; has := fun c => mem c flags |}.

Definition two_wells : Locations :=
  {| columns := ["GR"; "RHOB"];
     rows := [well "A" "Train" ["GR"]; well "B" "Test" ["GR"; "RHOB"]] |}.


(** A small measurement table over the notebook's catalog: well A has a gamma
    ray reading in its second sample, well B has samples but no reading, well C
    has no sample at all. *)
Definition sample_of (name : string) (cells : list (string * nat)) : Sample nat :=
  {| sWELL := name;
     reading := fun c =>
       option_map snd (find (fun kv => String.eqb (fst kv) c) cells) |}.

Definition three_logs : DataFrame nat :=
  {| data_columns := curves;
     samples := [sample_of "A" []; sample_of "A" [("GR", 75)];
                 sample_of "B" []] |}.

Definition three_wells : Locations :=
  {| columns := [];
     rows := [well "A" "Train" []; well "B" "Test" []; well "C" "Test" []] |}.

(** ** The rest of the notebook: the combined table and the map callback *)

Section Concat.

Variable V : Type.

(** A row seen through the labels [cols] of its own frame: in a combined
    frame, its cell in a column its frame does not have is missing. *)
Definition reindex (cols : list string) (s : Sample V) : Sample V :=
  {| sWELL := sWELL s;
     reading := fun c => if mem c cols then reading s c else None |}.

(** [pd.concat([train_df, test_df])]: the rows of the first frame, then those
    of the second; the columns of the first, then the new ones of the
    second. *)
Definition pd_concat (train_df test_df : DataFrame V) : DataFrame V :=
  {| data_columns :=
       data_columns train_df
       ++ filter (fun c => negb (mem c (data_columns train_df)))
                 (data_columns test_df);
     samples :=
       map (reindex (data_columns train_df)) (samples train_df)
       ++ map (reindex (data_columns test_df)) (samples test_df) |}.

End Concat.

(** What [update_figure] returns, by the call of [px.scatter_mapbox] that
    builds it: the map with its one point at the centre and no data frame, or
    the map of the wells of [dff] (with [WELL] first among its hover columns).
    The other arguments of the two calls and the [update_layout] calls are
    constants. *)
Inductive Figure : Type :=
| CentreMap
| WellsMap (dff : list WellRecord).

(** [[
    def update_figure(curves, datasets):
        curve_mask = locations_df[curves].values.all(axis=1)
        dff = locations_df[curve_mask]
        dff = dff[dff['Dataset'].isin(datasets)]
        num_wells = dff.shape[0]
        if num_wells == 0:
            fig = px.scatter_mapbox(lat=[59.610511], lon=[2.772594], ...)
        else:
            fig = px.scatter_mapbox(dff, ...)
        ...
        return fig
    ]] *)
Definition update_figure (locations_df : Locations)
    (curves datasets : list string) : result Figure :=
  values <- getitem_values locations_df curves ;;
  let curve_mask := all_axis1 values in
  let dff := bool_index (rows locations_df) curve_mask in
  let dff := bool_index dff (isin (map Dataset dff) datasets) in
  let num_wells := List.length dff in
  Ok (if Nat.eqb num_wells 0 then CentreMap else WellsMap dff).

(** The wells a figure draws. *)
Definition plotted (fig : Figure) : list WellRecord :=
  match fig with
  | CentreMap => []
  | WellsMap dff => dff
  end.

(** Two rows with the same cells. *)
Definition same_row (r r' : WellRecord) : Prop :=
  WELL r = WELL r' /\ Dataset r = Dataset r' /\ forall c, has r c = has r' c.

(** A training and a test table: the label column is in the first only. *)
Definition train_logs : DataFrame nat :=
  {| data_columns := ["GR"; "RHOB"; "LITHOLOGY"];
     samples := [sample_of "A" [("GR", 75); ("LITHOLOGY", 3)];
                 sample_of "A" [("RHOB", 2)]] |}.

Definition test_logs : DataFrame nat :=
  {| data_columns := ["GR"; "RHOB"];
     samples := [sample_of "B" [("GR", 60)]; sample_of "B" []] |}.

(** ** Lists, masks and membership *)

Lemma mem_In (x : string) (l : list string) : mem x l = true <-> In x l.
Proof.
  unfold mem. rewrite existsb_exists. split.
  - intros [y [Hy Heq]]. apply String.eqb_eq in Heq. now subst.
  - intros H. exists x. split; [assumption | apply String.eqb_refl].
Qed.

Lemma mem_cons (x a : string) (l : list string) :
  mem x (a :: l) = (String.eqb x a || mem x l)%bool.
Proof. reflexivity. Qed.

Lemma bool_index_map {A : Type} (f : A -> bool) (l : list A) :
  bool_index l (map f l) = filter f l.
Proof.
  induction l as [|a l IH]; simpl; [reflexivity|].
  rewrite IH. reflexivity.
Qed.

Lemma isin_map {A : Type} (g : A -> string) (l : list A) (values : list string) :
  isin (map g l) values = map (fun a => mem (g a) values) l.
Proof. unfold isin. now rewrite map_map. Qed.

Lemma all_axis1_map {A : Type} (g : A -> list bool) (l : list A) :
  all_axis1 (map g l) = map (fun a => forallb (fun b => b) (g a)) l.
Proof. unfold all_axis1. now rewrite map_map. Qed.

Lemma forallb_id_map {A : Type} (f : A -> bool) (l : list A) :
  forallb (fun b => b) (map f l) = forallb f l.
Proof. induction l as [|a l IH]; simpl; congruence. Qed.

Lemma mapM_pure {A B : Type} (f : A -> result B) (g : A -> B) (l : list A) :
  (forall a, In a l -> f a = Ok (g a)) -> mapM f l = Ok (map g l).
Proof.
  induction l as [|a l IH]; intros H; simpl; [reflexivity|].
  rewrite (H a (or_introl eq_refl)). simpl.
  rewrite IH by (intros; apply H; now right). reflexivity.
Qed.

Lemma missing_label_none (cols labels : list string) :
  missing_label cols labels = None <-> forall c, In c labels -> In c cols.
Proof.
  unfold missing_label. split.
  - intros H c Hc. pose proof (find_none _ _ H c Hc) as Hn.
    apply negb_false_iff in Hn. now apply mem_In.
  - intros H. destruct (find _ labels) as [c|] eqn:E; [|reflexivity].
    apply find_some in E. destruct E as [Hc Hn].
    apply negb_true_iff in Hn. apply H, mem_In in Hc. congruence.
Qed.

(** ** The availability columns *)

Section Availability.

Variable V : Type.
Variable well_data_df : DataFrame V.

Lemma well_has_curve_Ok (row : WellRecord) (curve : string) :
  In curve (data_columns well_data_df) ->
  well_has_curve row well_data_df curve
  = Ok (present well_data_df (WELL row) curve).
Proof.
  intros Hc. unfold well_has_curve, loc, present.
  apply mem_In in Hc. rewrite Hc. simpl. f_equal.
  rewrite bool_index_map.
  induction (samples well_data_df) as [|s l IH]; simpl; [reflexivity|].
  destruct (String.eqb (sWELL s) (WELL row)); simpl.
  - destruct (isnull (reading s curve)); simpl; [exact IH | reflexivity].
  - exact IH.
Qed.

Lemma present_true (w c : string) :
  present well_data_df w c = true <-> has_reading well_data_df w c.
Proof.
  unfold present, has_reading. rewrite existsb_exists. split.
  - intros [s [Hs Hb]]. apply andb_true_iff in Hb. destruct Hb as [He Hn].
    apply String.eqb_eq in He.
    destruct (reading s c) as [v|] eqn:E; [|discriminate].
    now exists s, v.
  - intros [s [v [Hs [He Hr]]]]. exists s. split; [assumption|].
    rewrite Hr. simpl. rewrite andb_true_r. now apply String.eqb_eq.
Qed.

Lemma set_rows_map (g : WellRecord -> bool) (curve : string)
    (rs : list WellRecord) :
  set_rows rs curve (map g rs) = map (fun r => set_cell r curve (g r)) rs.
Proof. induction rs as [|r rs IH]; simpl; congruence. Qed.

Lemma add_curve_Ok (locations_df : Locations) (curve : string) :
  In curve (data_columns well_data_df) ->
  add_curve well_data_df locations_df curve
  = Ok (setitem locations_df curve
          (map (fun row => present well_data_df (WELL row) curve)
               (rows locations_df))).
Proof.
  intros Hc. unfold add_curve.
  rewrite mapM_pure
    with (g := fun row => present well_data_df (WELL row) curve).
  - reflexivity.
  - intros row _. now apply well_has_curve_Ok.
Qed.

Lemma add_curves_rows (catalog : list string) :
  forall locations_df : Locations,
    (forall c, In c catalog -> In c (data_columns well_data_df)) ->
    exists df, add_curves catalog well_data_df locations_df = Ok df
               /\ rows df = map (flagged well_data_df catalog)
                                (rows locations_df).
Proof.
  induction catalog as [|c cs IH]; intros locs Hcols.
  - exists locs. split; [reflexivity|]. simpl. now rewrite map_id.
  - unfold add_curves. simpl.
    rewrite add_curve_Ok by (apply Hcols; now left). simpl.
    destruct (IH (setitem locs c
                    (map (fun row => present well_data_df (WELL row) c)
                         (rows locs))))
      as [df [Hdf Hrows]].
    { intros c' Hc'. apply Hcols. now right. }
    exists df. split; [exact Hdf|].
    rewrite Hrows. simpl. rewrite set_rows_map, map_map. reflexivity.
Qed.

Lemma setitem_columns (frame : Locations) (curve : string)
    (series : list bool) (x : string) :
  In x (columns (setitem frame curve series))
  <-> In x (columns frame) \/ x = curve.
Proof.
  unfold setitem. simpl.
  destruct (mem curve (columns frame)) eqn:E.
  - apply mem_In in E. split; [now left|]. intros [H| ->]; assumption.
  - rewrite in_app_iff. simpl. intuition congruence.
Qed.

Lemma add_curves_columns (catalog : list string) :
  forall (locations_df df : Locations),
    add_curves catalog well_data_df locations_df = Ok df ->
    forall x, In x (columns df) <-> In x (columns locations_df) \/ In x catalog.
Proof.
  induction catalog as [|c cs IH]; intros locs df H x.
  - injection H as <-. simpl. tauto.
  - unfold add_curves in H. simpl in H. unfold add_curve in H at 1.
    destruct (mapM _ (rows locs)) as [series|e]; [|discriminate].
    simpl in H. rewrite (IH _ _ H x), setitem_columns. simpl.
    intuition congruence.
Qed.

Lemma flagged_WELL (catalog : list string) :
  forall row, WELL (flagged well_data_df catalog row) = WELL row.
Proof.
  induction catalog as [|c cs IH]; intros row; [reflexivity|].
  unfold flagged in *. simpl. now rewrite IH.
Qed.

Lemma flagged_Dataset (catalog : list string) :
  forall row, Dataset (flagged well_data_df catalog row) = Dataset row.
Proof.
  induction catalog as [|c cs IH]; intros row; [reflexivity|].
  unfold flagged in *. simpl. now rewrite IH.
Qed.

Lemma flagged_has (catalog : list string) :
  forall row c,
    has (flagged well_data_df catalog row) c
    = if mem c catalog then present well_data_df (WELL row) c
      else has row c.
Proof.
  induction catalog as [|a cs IH]; intros row c; [reflexivity|].
  unfold flagged in *. simpl fold_left. rewrite IH, mem_cons. simpl.
  destruct (mem c cs); [now rewrite orb_true_r|].
  rewrite orb_false_r.
  destruct (String.eqb c a) eqn:E; [|reflexivity].
  apply String.eqb_eq in E. now subst.
Qed.

End Availability.

(** C1.  When the table of wells has rows and the measurement table has a
    column for every curve of the catalog, the loop over the catalog succeeds, keeps the wells and their
    datasets, gives the table a column for every curve of the catalog, and
    leaves in the column of curve [c] of well [w] the value
    [True] exactly when some sample of [w] has a reading of [c] that is not
    missing.  So the value is [False] when every sample of the well misses the
    curve, and when the well has no sample in the table at all. *)
Theorem availability_iff_reading (V : Type) (catalog : list string)
    (well_data_df : DataFrame V) (locations_df : Locations) :
  rows locations_df <> [] ->
  (forall c, In c catalog -> In c (data_columns well_data_df)) ->
  exists df,
    add_curves catalog well_data_df locations_df = Ok df
    /\ map WELL (rows df) = map WELL (rows locations_df)
    /\ map Dataset (rows df) = map Dataset (rows locations_df)
    /\ (forall c, In c catalog -> In c (columns df))
    /\ forall w c, In w (rows df) -> In c catalog ->
         (has w c = true <-> has_reading well_data_df (WELL w) c)
         /\ ((forall s, In s (samples well_data_df) -> sWELL s = WELL w ->
                        reading s c = None) -> has w c = false)
         /\ ((forall s, In s (samples well_data_df) -> sWELL s <> WELL w) ->
             has w c = false).
Proof.
  intros _ Hcols.
  destruct (add_curves_rows well_data_df catalog locations_df Hcols)
    as [df [Hdf Hrows]].
  exists df. split; [exact Hdf|]. rewrite Hrows, !map_map.
  split; [apply map_ext; intros; apply flagged_WELL|].
  split; [apply map_ext; intros; apply flagged_Dataset|].
  split; [intros c Hc; apply (@add_curves_columns _ _ _ _ _ Hdf); now right|].
  intros w c Hw Hc. apply in_map_iff in Hw. destruct Hw as [r [<- _]].
  assert (Hiff : has (flagged well_data_df catalog r) c = true
                 <-> has_reading well_data_df
                       (WELL (flagged well_data_df catalog r)) c).
  { rewrite flagged_has, flagged_WELL.
    apply mem_In in Hc. rewrite Hc. apply present_true. }
  split; [exact Hiff|]. split.
  - intros Hnone. apply not_true_is_false. intros Ht.
    apply Hiff in Ht. destruct Ht as [s [v [Hs [He Hr]]]].
    rewrite (Hnone s Hs He) in Hr. discriminate.
  - intros Habsent. apply not_true_is_false. intros Ht.
    apply Hiff in Ht. destruct Ht as [s [v [Hs [He Hr]]]].
    exact (Habsent s Hs He).
Qed.

Lemma availability_iff_reading_witness :
  rows three_wells <> []
  /\ (forall c, In c curves -> In c (data_columns three_logs))
  /\ exists df,
       add_curves curves three_logs three_wells = Ok df
       /\ map (fun w => has w "GR") (rows df) = [true; false; false].
Proof.
  assert (Hrows : rows three_wells <> []) by discriminate.
  split; [exact Hrows|]. split; [intros c Hc; exact Hc|].
  destruct (@availability_iff_reading nat curves three_logs three_wells
              Hrows (fun c Hc => Hc)) as [df [Hdf _]].
  exists df. split; [exact Hdf|].
  vm_compute in Hdf. injection Hdf as <-. reflexivity.
Defined.

(** ** Filters and subsequences *)

Lemma filter_filter {A : Type} (f g : A -> bool) (l : list A) :
  filter g (filter f l) = filter (fun x => f x && g x)%bool l.
Proof.
  induction l as [|a l IH]; simpl; [reflexivity|].
  destruct (f a); simpl; [destruct (g a)|]; now rewrite IH.
Qed.

Lemma filter_all {A : Type} (f : A -> bool) (l : list A) :
  (forall x, In x l -> f x = true) -> filter f l = l.
Proof.
  intros H. apply forallb_filter_id, forallb_forall, H.
Qed.

Lemma filter_map_WELL (f : string -> bool) (l : list WellRecord) :
  filter f (map WELL l) = map WELL (filter (fun r => f (WELL r)) l).
Proof.
  induction l as [|a l IH]; simpl; [reflexivity|].
  destruct (f (WELL a)); simpl; now rewrite IH.
Qed.

Lemma Subseq_length {A : Type} (s l : list A) :
  Subseq s l -> List.length s <= List.length l.
Proof. induction 1; simpl; lia. Qed.

Lemma Subseq_map {A B : Type} (g : A -> B) (s l : list A) :
  Subseq s l -> Subseq (map g s) (map g l).
Proof. induction 1; simpl; constructor; assumption. Qed.

Lemma Subseq_filter_mono {A : Type} (f g : A -> bool) (l : list A) :
  (forall x, In x l -> f x = true -> g x = true) ->
  Subseq (filter f l) (filter g l).
Proof.
  induction l as [|a l IH]; intros H; simpl; [constructor|].
  assert (IH' : Subseq (filter f l) (filter g l))
    by (apply IH; intros x Hx; apply H; now right).
  destruct (f a) eqn:Ef.
  - rewrite (H a (or_introl eq_refl) Ef). now constructor.
  - destruct (g a); [now constructor | assumption].
Qed.

Lemma Subseq_filter {A : Type} (f : A -> bool) (l : list A) :
  Subseq (filter f l) l.
Proof.
  rewrite <- (filter_true l) at 2.
  apply Subseq_filter_mono. reflexivity.
Qed.

(** ** The steps of [update_output] *)

Lemma getitem_values_Ok (locations_df : Locations) (labels : list string) :
  (forall c, In c labels -> In c (columns locations_df)) ->
  getitem_values locations_df labels
  = Ok (map (fun r => map (has r) labels) (rows locations_df)).
Proof.
  intros H. unfold getitem_values.
  apply missing_label_none in H. now rewrite H.
Qed.

Lemma qualified_frame (l : list WellRecord) (curves datasets : list string) :
  let dff := bool_index l
               (all_axis1 (map (fun r => map (has r) curves) l)) in
  bool_index dff (isin (map Dataset dff) datasets)
  = filter (qualifies curves datasets) l.
Proof.
  simpl. rewrite all_axis1_map, bool_index_map, isin_map, bool_index_map.
  rewrite filter_filter. apply filter_ext. intros r. unfold qualifies.
  now rewrite forallb_id_map.
Qed.

Lemma selected_frame_eq (locations_df : Locations)
    (curves datasets : list string) (selected_items : option SelectedData) :
  (forall c, In c curves -> In c (columns locations_df)) ->
  selected_frame locations_df curves datasets selected_items
  = (lasso_wells <- lasso selected_items ;;
     Ok (keep lasso_wells
           (filter (qualifies curves datasets) (rows locations_df)))).
Proof.
  intros H. unfold selected_frame. rewrite (getitem_values_Ok _ _ H).
  cbn [bind]. rewrite qualified_frame.
  destruct (lasso selected_items) as [lw|e]; cbn [bind]; [|reflexivity].
  unfold keep. now rewrite isin_map, bool_index_map.
Qed.

Lemma keep_all (lasso_wells : option (list string)) (dff : list WellRecord) :
  lasso_or_all lasso_wells (map WELL dff) = map WELL dff ->
  keep lasso_wells dff = dff.
Proof.
  intros E. unfold keep. rewrite E. apply filter_all.
  intros r Hr. apply mem_In. now apply in_map.
Qed.

Lemma keep_None (dff : list WellRecord) : keep None dff = dff.
Proof. now apply keep_all. Qed.

Lemma keep_Some (names : list string) (dff : list WellRecord) :
  names <> [] ->
  keep (Some names) dff = filter (fun r => mem (WELL r) names) dff.
Proof. destruct names; [congruence | reflexivity]. Qed.

Lemma keep_chosen (lasso_wells : option (list string)) (dff : list WellRecord) :
  keep lasso_wells dff = filter (chosen lasso_wells) dff.
Proof.
  destruct lasso_wells as [[|w ws]|]; try reflexivity;
    (rewrite keep_all by reflexivity); symmetry; now apply filter_all.
Qed.

Lemma selected_frame_Ok (locations_df : Locations)
    (curves datasets : list string) (selected_items : option SelectedData)
    (lasso_wells : option (list string)) :
  (forall c, In c curves -> In c (columns locations_df)) ->
  lasso selected_items = Ok lasso_wells ->
  selected_frame locations_df curves datasets selected_items
  = Ok (filter (fun r => qualifies curves datasets r && chosen lasso_wells r)%bool
               (rows locations_df)).
Proof.
  intros Hc Hl. rewrite selected_frame_eq by assumption. rewrite Hl.
  cbn [bind]. now rewrite keep_chosen, filter_filter.
Qed.

Lemma mapM_length {A B : Type} (f : A -> result B) (l : list A) :
  forall bs, mapM f l = Ok bs -> List.length bs = List.length l.
Proof.
  induction l as [|a l IH]; simpl; intros bs H.
  - now injection H as <-.
  - destruct (f a); [|discriminate]. simpl in H.
    destruct (mapM f l) as [bs'|]; [|discriminate]. simpl in H.
    injection H as <-. simpl. now rewrite (IH bs' eq_refl).
Qed.

Lemma lasso_points (pts : list Point) (names : list string) :
  pts <> [] -> point_wells pts = Ok names ->
  lasso (Some {| points := pts |}) = Ok (Some names) /\ names <> [].
Proof.
  intros Hne Hp. split.
  - unfold lasso. simpl. destruct pts; [congruence|]. now rewrite Hp.
  - intros ->. apply mapM_length in Hp. destruct pts; [congruence|discriminate].
Qed.

Lemma lasso_Some (selected_items : option SelectedData) (names : list string) :
  lasso selected_items = Ok (Some names) -> names <> [].
Proof.
  destruct selected_items as [[pts]|]; [|discriminate].
  unfold lasso. simpl. destruct pts as [|p pts]; [discriminate|].
  destruct (point_wells (p :: pts)) as [ns|] eqn:E; [|discriminate].
  simpl. intros H. injection H as <-.
  intros ->. apply mapM_length in E. discriminate.
Qed.

Lemma point_wells_selection (names : list string) :
  point_wells (map (fun w => {| customdata := [w] |}) names) = Ok names.
Proof.
  unfold point_wells. induction names as [|w ws IH]; simpl; [reflexivity|].
  now rewrite IH.
Qed.

Lemma lasso_selection (names : list string) :
  names <> [] -> lasso (selection names) = Ok (Some names).
Proof.
  intros Hne. apply lasso_points.
  - destruct names; [congruence | discriminate].
  - apply point_wells_selection.
Qed.

(** ** The rendered text *)

Lemma append_assoc (a b c : string) : ((a ++ b) ++ c = a ++ b ++ c)%string.
Proof. induction a as [|x a IH]; simpl; congruence. Qed.

Lemma render_text (dff : list WellRecord) :
  render dff
  = (nl ++ "You have selected " ++ format_nat (List.length (map WELL dff))
        ++ " wells." ++ nl ++ nl
        ++ "selected_wells = ["
        ++ String.concat ", " (map (fun w => "'" ++ w ++ "'") (map WELL dff))
        ++ "]")%string.
Proof.
  unfold render, output_text, well_list_text, quoted.
  rewrite length_map, !append_assoc. reflexivity.
Qed.

Lemma format_nat_value (n : nat) :
  option_map Nat.of_uint (NilZero.uint_of_string (format_nat n)) = Some n.
Proof.
  unfold format_nat. rewrite NilZero.usu.
  - simpl. f_equal. apply DecimalNat.Unsigned.of_to.
  - intros H. pose proof (f_equal Nat.of_uint H) as H0.
    rewrite DecimalNat.Unsigned.of_to in H0. simpl in H0. subst n.
    discriminate H.
Qed.

Lemma mem_ext (names1 names2 : list string) :
  (forall w, In w names1 <-> In w names2) ->
  forall x, mem x names1 = mem x names2.
Proof.
  intros H x. apply eq_iff_eq_true. rewrite !mem_In. apply H.
Qed.

Lemma qualifies_mono (curves curves' datasets datasets' : list string)
    (r : WellRecord) :
  incl curves curves' -> incl datasets' datasets ->
  qualifies curves' datasets' r = true -> qualifies curves datasets r = true.
Proof.
  unfold qualifies. intros Hc Hd H.
  apply andb_true_iff in H. destruct H as [Hall Hmem].
  apply andb_true_iff. split.
  - apply forallb_forall. intros c Hin.
    rewrite forallb_forall in Hall. apply Hall, Hc, Hin.
  - apply mem_In. apply Hd. now apply mem_In.
Qed.

(** ** The selection filter *)

(** C2.  With no required curve, no well is dropped for its curves: without a
    lasso the callback lists exactly the wells whose dataset is checked, and
    with any selection event the frame it filters by lasso is the frame of
    those wells. *)
Theorem no_required_curve_passes_all (locations_df : Locations)
    (datasets : list string) (selected_items : option SelectedData) :
  selected_wells locations_df [] datasets None
  = Ok (map WELL (filter (fun r => mem (Dataset r) datasets)
                         (rows locations_df)))
  /\ update_output locations_df [] datasets None
     = Ok (render (filter (fun r => mem (Dataset r) datasets)
                          (rows locations_df)))
  /\ selected_frame locations_df [] datasets selected_items
     = (lasso_wells <- lasso selected_items ;;
        Ok (keep lasso_wells
              (filter (fun r => mem (Dataset r) datasets)
                      (rows locations_df)))).
Proof.
  assert (E : selected_frame locations_df [] datasets selected_items
              = (lasso_wells <- lasso selected_items ;;
                 Ok (keep lasso_wells
                       (filter (fun r => mem (Dataset r) datasets)
                               (rows locations_df))))).
  { rewrite selected_frame_eq by (intros c []). reflexivity. }
  assert (E0 : selected_frame locations_df [] datasets None
               = Ok (filter (fun r => mem (Dataset r) datasets)
                            (rows locations_df))).
  { rewrite selected_frame_eq by (intros c []). cbn [lasso bind].
    now rewrite keep_None. }
  unfold selected_wells, update_output. rewrite E0. cbn [bind].
  repeat split. exact E.
Qed.

(** C3.  A selection event with no points restricts nothing: the callback
    lists every well that passes the curve and dataset filters, as it does
    when there is no event. *)
Theorem empty_selection_shows_all (locations_df : Locations)
    (curves datasets : list string) :
  (forall c, In c curves -> In c (columns locations_df)) ->
  selected_wells locations_df curves datasets (Some {| points := [] |})
  = Ok (map WELL (filter (qualifies curves datasets) (rows locations_df)))
  /\ selected_wells locations_df curves datasets (Some {| points := [] |})
     = selected_wells locations_df curves datasets None
  /\ update_output locations_df curves datasets (Some {| points := [] |})
     = update_output locations_df curves datasets None.
Proof.
  intros Hc. unfold selected_wells, update_output.
  rewrite !selected_frame_eq by assumption. cbn [lasso points bind].
  rewrite keep_None. repeat split.
Qed.

Lemma empty_selection_shows_all_witness :
  (forall c, In c ["GR"] -> In c (columns two_wells))
  /\ selected_wells two_wells ["GR"] ["Train"; "Test"]
       (Some {| points := [] |}) = Ok ["A"; "B"].
Proof.
  assert (H : forall c, In c ["GR"] -> In c (columns two_wells))
    by (apply missing_label_none; reflexivity).
  split; [exact H|].
  exact (proj1 (@empty_selection_shows_all two_wells ["GR"]
                  ["Train"; "Test"] H)).
Defined.

(** C4.  A selection event with points keeps, of the wells that pass the curve
    and dataset filters, those named by a point, in the table's order; a name
    that is not among them changes nothing and raises nothing, so that a
    selection of unknown names only gives the empty list. *)
Theorem lasso_intersects (locations_df : Locations)
    (curves datasets : list string) (pts : list Point) (names : list string) :
  (forall c, In c curves -> In c (columns locations_df)) ->
  pts <> [] ->
  point_wells pts = Ok names ->
  let qualified :=
    map WELL (filter (qualifies curves datasets) (rows locations_df)) in
  selected_wells locations_df curves datasets (Some {| points := pts |})
  = Ok (filter (fun w => mem w names) qualified)
  /\ (forall w result,
        selected_wells locations_df curves datasets (Some {| points := pts |})
        = Ok result ->
        (In w result <-> In w qualified /\ In w names))
  /\ ((forall w, In w names -> ~ In w qualified) ->
      selected_wells locations_df curves datasets (Some {| points := pts |})
      = Ok []).
Proof.
  intros Hc Hne Hp qualified.
  destruct (lasso_points Hne Hp) as [Hl Hn].
  assert (E : selected_wells locations_df curves datasets
                (Some {| points := pts |})
              = Ok (filter (fun w => mem w names) qualified)).
  { unfold selected_wells. rewrite selected_frame_eq by assumption.
    rewrite Hl. cbn [bind]. rewrite keep_Some by assumption.
    unfold qualified. now rewrite filter_map_WELL. }
  split; [exact E|]. split.
  - intros w result Hr. rewrite E in Hr. injection Hr as <-.
    rewrite filter_In, mem_In. reflexivity.
  - intros Hun. rewrite E. f_equal.
    destruct (filter (fun w => mem w names) qualified) as [|w l] eqn:F;
      [reflexivity|].
    assert (Hw : In w (filter (fun w => mem w names) qualified))
      by (rewrite F; now left).
    apply filter_In in Hw. destruct Hw as [Hq Hm].
    apply mem_In in Hm. now destruct (Hun w Hm).
Qed.

Lemma lasso_intersects_witness :
  (forall c, In c ["GR"] -> In c (columns two_wells))
  /\ [{| customdata := ["Z"; "1998"] |}] <> []
  /\ point_wells [{| customdata := ["Z"; "1998"] |}] = Ok ["Z"]
  /\ selected_wells two_wells ["GR"] ["Train"; "Test"]
       (Some {| points := [{| customdata := ["Z"; "1998"] |}] |}) = Ok [].
Proof.
  assert (H : forall c, In c ["GR"] -> In c (columns two_wells))
    by (apply missing_label_none; reflexivity).
  assert (Hne : [{| customdata := ["Z"; "1998"] |}] <> []) by discriminate.
  split; [exact H|]. split; [exact Hne|]. split; [reflexivity|].
  exact (proj1 (@lasso_intersects two_wells ["GR"] ["Train"; "Test"]
                  [{| customdata := ["Z"; "1998"] |}] ["Z"] H Hne eq_refl)).
Defined.

(** C5.  With no dataset checked the callback selects no well, whatever the
    required curves and the selection event: the list is empty, the count is
    0, the text is that of the empty list, and nothing is raised. *)
Theorem empty_datasets_select_nothing (locations_df : Locations)
    (curves : list string) (selected_items : option SelectedData)
    (lasso_wells : option (list string)) :
  (forall c, In c curves -> In c (columns locations_df)) ->
  lasso selected_items = Ok lasso_wells ->
  selected_wells locations_df curves [] selected_items = Ok []
  /\ update_output locations_df curves [] selected_items
     = Ok (nl ++ "You have selected 0 wells." ++ nl ++ nl
              ++ "selected_wells = []")%string.
Proof.
  intros Hc Hl.
  assert (E : selected_frame locations_df curves [] selected_items = Ok []).
  { rewrite (@selected_frame_Ok _ _ _ _ _ Hc Hl). f_equal.
    induction (rows locations_df) as [|r l IH]; [reflexivity|].
    simpl. unfold qualifies at 1. simpl. now rewrite andb_false_r. }
  unfold selected_wells, update_output. rewrite E. split; reflexivity.
Qed.

Lemma empty_datasets_select_nothing_witness :
  (forall c, In c ["GR"] -> In c (columns two_wells))
  /\ lasso (selection ["A"]) = Ok (Some ["A"])
  /\ update_output two_wells ["GR"] [] (selection ["A"])
     = Ok (nl ++ "You have selected 0 wells." ++ nl ++ nl
              ++ "selected_wells = []")%string.
Proof.
  assert (H : forall c, In c ["GR"] -> In c (columns two_wells))
    by (apply missing_label_none; reflexivity).
  split; [exact H|]. split; [reflexivity|].
  exact (proj2 (@empty_datasets_select_nothing two_wells ["GR"]
                  (selection ["A"]) (Some ["A"]) H eq_refl)).
Defined.

(** C6.  The text the callback returns is: a newline, the line
    [You have selected n wells.] with [n] the number of selected wells, an
    empty line, and the line [selected_wells = [...]] holding the selected
    names in single quotes, separated by a comma and a space.  For the
    two-well table, with GR and RHOB required and both datasets checked, it
    reports the one well B. *)
Theorem rendered_text_format (locations_df : Locations)
    (curves datasets : list string) (selected_items : option SelectedData)
    (lasso_wells : option (list string)) :
  (forall c, In c curves -> In c (columns locations_df)) ->
  lasso selected_items = Ok lasso_wells ->
  (exists names,
     selected_wells locations_df curves datasets selected_items = Ok names
     /\ update_output locations_df curves datasets selected_items
        = Ok (nl ++ "You have selected " ++ format_nat (List.length names)
                 ++ " wells." ++ nl ++ nl
                 ++ "selected_wells = ["
                 ++ String.concat ", " (map (fun w => "'" ++ w ++ "'") names)
                 ++ "]")%string)
  /\ update_output two_wells ["GR"; "RHOB"] ["Train"; "Test"] None
     = Ok (nl ++ "You have selected 1 wells." ++ nl ++ nl
              ++ "selected_wells = ['B']")%string.
Proof.
  intros Hc Hl. split; [|reflexivity].
  unfold selected_wells, update_output.
  rewrite (@selected_frame_Ok _ _ _ _ _ Hc Hl). cbn [bind].
  eexists. split; [reflexivity|]. now rewrite render_text.
Qed.

Lemma rendered_text_format_witness :
  (forall c, In c ["GR"] -> In c (columns two_wells))
  /\ lasso None = Ok None
  /\ exists names,
       selected_wells two_wells ["GR"] ["Train"; "Test"] None = Ok names
       /\ update_output two_wells ["GR"] ["Train"; "Test"] None
          = Ok (nl ++ "You have selected " ++ format_nat (List.length names)
                   ++ " wells." ++ nl ++ nl
                   ++ "selected_wells = ["
                   ++ String.concat ", " (map (fun w => "'" ++ w ++ "'") names)
                   ++ "]")%string.
Proof.
  assert (H : forall c, In c ["GR"] -> In c (columns two_wells))
    by (apply missing_label_none; reflexivity).
  split; [exact H|]. split; [reflexivity|].
  exact (proj1 (@rendered_text_format two_wells ["GR"] ["Train"; "Test"]
                  None None H eq_refl)).
Defined.

(** C7.  Requiring more curves, or checking fewer datasets, never adds a
    well: the new list is the old one with some wells removed, so it is no
    longer. *)
Theorem selection_monotone (locations_df : Locations)
    (curves curves' datasets datasets' : list string)
    (selected_items : option SelectedData)
    (lasso_wells : option (list string)) :
  (forall c, In c curves' -> In c (columns locations_df)) ->
  lasso selected_items = Ok lasso_wells ->
  incl curves curves' ->
  incl datasets' datasets ->
  exists wells wells',
    selected_wells locations_df curves datasets selected_items = Ok wells
    /\ selected_wells locations_df curves' datasets' selected_items = Ok wells'
    /\ Subseq wells' wells
    /\ List.length wells' <= List.length wells.
Proof.
  intros Hc Hl Hcs Hds.
  assert (Hc0 : forall c, In c curves -> In c (columns locations_df))
    by (intros c Hin; apply Hc, Hcs, Hin).
  unfold selected_wells.
  rewrite (@selected_frame_Ok _ _ _ _ _ Hc Hl), (@selected_frame_Ok _ _ _ _ _ Hc0 Hl).
  cbn [bind]. do 2 eexists. split; [reflexivity|]. split; [reflexivity|].
  assert (S : Subseq
    (map WELL (filter (fun r => qualifies curves' datasets' r
                                && chosen lasso_wells r)%bool
                      (rows locations_df)))
    (map WELL (filter (fun r => qualifies curves datasets r
                                && chosen lasso_wells r)%bool
                      (rows locations_df)))).
  { apply Subseq_map, Subseq_filter_mono. intros r _ H.
    apply andb_true_iff in H. destruct H as [Hq Hch].
    apply andb_true_iff. split; [|exact Hch].
    exact (@qualifies_mono _ _ _ _ r Hcs Hds Hq). }
  split; [exact S | exact (Subseq_length S)].
Qed.

Lemma selection_monotone_witness :
  (forall c, In c ["GR"; "RHOB"] -> In c (columns two_wells))
  /\ lasso None = Ok None
  /\ incl ["GR"] ["GR"; "RHOB"]
  /\ incl ["Test"] ["Train"; "Test"]
  /\ exists wells wells',
       selected_wells two_wells ["GR"] ["Train"; "Test"] None = Ok wells
       /\ selected_wells two_wells ["GR"; "RHOB"] ["Test"] None = Ok wells'
       /\ Subseq wells' wells
       /\ List.length wells' <= List.length wells.
Proof.
  assert (H : forall c, In c ["GR"; "RHOB"] -> In c (columns two_wells))
    by (apply missing_label_none; reflexivity).
  assert (H1 : incl ["GR"] ["GR"; "RHOB"])
    by (intros c [<-|[]]; now left).
  assert (H2 : incl ["Test"] ["Train"; "Test"])
    by (intros c [<-|[]]; right; now left).
  split; [exact H|]. split; [reflexivity|]. split; [exact H1|].
  split; [exact H2|].
  exact (@selection_monotone two_wells ["GR"] ["GR"; "RHOB"]
           ["Train"; "Test"] ["Test"] None None H eq_refl H1 H2).
Defined.

(** C8.  The selected wells come in the order of the rows of the table: the
    filtered frame is the table with the rows that fail a filter removed, and
    the names are read off it row by row. *)
Theorem selection_keeps_table_order (locations_df : Locations)
    (curves datasets : list string) (selected_items : option SelectedData)
    (lasso_wells : option (list string)) :
  (forall c, In c curves -> In c (columns locations_df)) ->
  lasso selected_items = Ok lasso_wells ->
  exists dff,
    selected_frame locations_df curves datasets selected_items = Ok dff
    /\ selected_wells locations_df curves datasets selected_items
       = Ok (map WELL dff)
    /\ dff = filter (fun r => qualifies curves datasets r
                              && chosen lasso_wells r)%bool
                    (rows locations_df)
    /\ Subseq dff (rows locations_df)
    /\ Subseq (map WELL dff) (map WELL (rows locations_df)).
Proof.
  intros Hc Hl. unfold selected_wells.
  rewrite (@selected_frame_Ok _ _ _ _ _ Hc Hl). cbn [bind].
  eexists. split; [reflexivity|]. split; [reflexivity|].
  split; [reflexivity|]. split.
  - apply Subseq_filter.
  - apply Subseq_map, Subseq_filter.
Qed.

Lemma selection_keeps_table_order_witness :
  (forall c, In c ["GR"] -> In c (columns two_wells))
  /\ lasso (selection ["B"; "A"]) = Ok (Some ["B"; "A"])
  /\ selected_wells two_wells ["GR"] ["Test"; "Train"] (selection ["B"; "A"])
     = Ok ["A"; "B"].
Proof.
  assert (H : forall c, In c ["GR"] -> In c (columns two_wells))
    by (apply missing_label_none; reflexivity).
  split; [exact H|]. split; [reflexivity|].
  destruct (@selection_keeps_table_order two_wells ["GR"] ["Test"; "Train"]
              (selection ["B"; "A"]) (Some ["B"; "A"]) H eq_refl)
    as [dff [_ [Hw [Hd _]]]].
  rewrite Hw, Hd. reflexivity.
Defined.

(** C9.  The number printed in the count line is the number of quoted names
    in the list line: the text is made of a decimal numeral and of a list of
    quoted names, and the numeral reads back as the length of that list,
    which is the list of the selected wells. *)
Theorem count_matches_listed_wells (locations_df : Locations)
    (curves datasets : list string) (selected_items : option SelectedData)
    (lasso_wells : option (list string)) :
  (forall c, In c curves -> In c (columns locations_df)) ->
  lasso selected_items = Ok lasso_wells ->
  exists (digits : string) (names : list string),
    update_output locations_df curves datasets selected_items
    = Ok (nl ++ "You have selected " ++ digits ++ " wells." ++ nl ++ nl
             ++ "selected_wells = ["
             ++ String.concat ", " (map quoted names) ++ "]")%string
    /\ selected_wells locations_df curves datasets selected_items = Ok names
    /\ option_map Nat.of_uint (NilZero.uint_of_string digits)
       = Some (List.length (map quoted names)).
Proof.
  intros Hc Hl. unfold selected_wells, update_output.
  rewrite (@selected_frame_Ok _ _ _ _ _ Hc Hl). cbn [bind].
  eexists. eexists. split; [|split; [reflexivity|]].
  - rewrite render_text. reflexivity.
  - rewrite !length_map. apply format_nat_value.
Qed.

Lemma count_matches_listed_wells_witness :
  (forall c, In c ["GR"] -> In c (columns two_wells))
  /\ lasso None = Ok None
  /\ exists (digits : string) (names : list string),
       update_output two_wells ["GR"] ["Train"; "Test"] None
       = Ok (nl ++ "You have selected " ++ digits ++ " wells." ++ nl ++ nl
                ++ "selected_wells = ["
                ++ String.concat ", " (map quoted names) ++ "]")%string
       /\ selected_wells two_wells ["GR"] ["Train"; "Test"] None = Ok names
       /\ option_map Nat.of_uint (NilZero.uint_of_string digits)
          = Some (List.length (map quoted names)).
Proof.
  assert (H : forall c, In c ["GR"] -> In c (columns two_wells))
    by (apply missing_label_none; reflexivity).
  split; [exact H|]. split; [reflexivity|].
  exact (@count_matches_listed_wells two_wells ["GR"] ["Train"; "Test"]
           None None H eq_refl).
Defined.

Lemma selected_frame_names_ext (locations_df : Locations)
    (curves datasets : list string) (items1 items2 : option SelectedData)
    (names1 names2 : list string) :
  lasso items1 = Ok (Some names1) ->
  lasso items2 = Ok (Some names2) ->
  (forall w, In w names1 <-> In w names2) ->
  selected_frame locations_df curves datasets items1
  = selected_frame locations_df curves datasets items2.
Proof.
  intros H1 H2 Hset. unfold selected_frame.
  destruct (getitem_values locations_df curves) as [values|e];
    cbn [bind]; [|reflexivity].
  rewrite H1, H2. cbn [bind]. do 2 f_equal.
  pose proof (lasso_Some _ H1) as N1. pose proof (lasso_Some _ H2) as N2.
  destruct names1 as [|a1 l1]; [congruence|].
  destruct names2 as [|a2 l2]; [congruence|].
  unfold isin, lasso_or_all. apply map_ext. intros x. now apply mem_ext.
Qed.

(** C10.  Only the set of names of a selection with points matters: two
    selection events whose points name the same wells, whatever the order and
    the repetitions, give the same list and the same text; so does a
    selection and the same selection without its repetitions. *)
Theorem selection_depends_on_name_set (locations_df : Locations)
    (curves datasets : list string) :
  (forall (items1 items2 : option SelectedData) (names1 names2 : list string),
      lasso items1 = Ok (Some names1) ->
      lasso items2 = Ok (Some names2) ->
      (forall w, In w names1 <-> In w names2) ->
      selected_wells locations_df curves datasets items1
      = selected_wells locations_df curves datasets items2
      /\ update_output locations_df curves datasets items1
         = update_output locations_df curves datasets items2)
  /\ (forall names : list string,
        selected_wells locations_df curves datasets (selection names)
        = selected_wells locations_df curves datasets
            (selection (nodup string_dec names))
        /\ update_output locations_df curves datasets (selection names)
           = update_output locations_df curves datasets
               (selection (nodup string_dec names))).
Proof.
  split.
  - intros items1 items2 names1 names2 H1 H2 Hset.
    unfold selected_wells, update_output.
    rewrite (selected_frame_names_ext locations_df curves datasets
               _ _ H1 H2 Hset).
    split; reflexivity.
  - intros names.
    assert (E : selected_frame locations_df curves datasets (selection names)
                = selected_frame locations_df curves datasets
                    (selection (nodup string_dec names))).
    { destruct names as [|w ws]; [reflexivity|].
      apply selected_frame_names_ext
        with (names1 := w :: ws) (names2 := nodup string_dec (w :: ws)).
      - apply lasso_selection. discriminate.
      - apply lasso_selection. intros E.
        assert (Hin : In w (nodup string_dec (w :: ws)))
          by (apply nodup_In; now left).
        rewrite E in Hin. destruct Hin.
      - intros x. symmetry. apply nodup_In. }
    unfold selected_wells, update_output. rewrite E. split; reflexivity.
Qed.

Lemma selection_depends_on_name_set_witness :
  lasso (selection ["B"; "A"; "B"]) = Ok (Some ["B"; "A"; "B"])
  /\ lasso (selection ["A"; "B"]) = Ok (Some ["A"; "B"])
  /\ (forall w, In w ["B"; "A"; "B"] <-> In w ["A"; "B"])
  /\ update_output two_wells ["GR"] ["Train"; "Test"]
       (selection ["B"; "A"; "B"])
     = update_output two_wells ["GR"] ["Train"; "Test"] (selection ["A"; "B"]).
Proof.
  assert (H : forall w, In w ["B"; "A"; "B"] <-> In w ["A"; "B"])
    by (intros w; simpl; tauto).
  split; [reflexivity|]. split; [reflexivity|]. split; [exact H|].
  exact (proj2 (proj1 (selection_depends_on_name_set two_wells ["GR"]
                         ["Train"; "Test"])
                  (selection ["B"; "A"; "B"]) (selection ["A"; "B"])
                  ["B"; "A"; "B"] ["A"; "B"] eq_refl eq_refl H)).
Defined.

(** ** The examples of the notebook's table *)

Example ex_required_GR_Train :
  selected_wells two_wells ["GR"] ["Train"] None = Ok ["A"].
Proof. reflexivity. Qed.

Example ex_no_required_curve :
  selected_wells two_wells [] ["Train"; "Test"] None = Ok ["A"; "B"].
Proof. reflexivity. Qed.

Example ex_lasso_A :
  selected_wells two_wells ["GR"] ["Train"; "Test"] (selection ["A"])
  = Ok ["A"].
Proof. reflexivity. Qed.

Example ex_unknown_curve :
  update_output two_wells ["GR"; "NPHI"] ["Train"] None
  = Raise (KeyError "NPHI").
Proof. reflexivity. Qed.

Example ex_point_without_customdata :
  update_output two_wells ["GR"] ["Train"]
    (Some {| points := [{| customdata := [] |}] |})
  = Raise IndexError.
Proof. reflexivity. Qed.

(** ** More on the availability columns *)

Unset Implicit Arguments.

Lemma forallb_Permutation {A : Type} (f : A -> bool) (l l' : list A) :
  Permutation l l' -> forallb f l = forallb f l'.
Proof.
  induction 1; simpl.
  - reflexivity.
  - now rewrite IHPermutation.
  - destruct (f x), (f y); reflexivity.
  - congruence.
Qed.

Lemma forallb_map_filter {A B : Type} (p : A -> bool) (h : A -> B)
    (g : B -> bool) (l : list A) :
  forallb g (map h (filter p l)) = forallb (fun a => implb (p a) (g (h a))) l.
Proof.
  induction l as [|a l IH]; simpl; [reflexivity|].
  destruct (p a); simpl; now rewrite IH.
Qed.

Lemma mapM_ext {A B : Type} (f g : A -> result B) (l : list A) :
  (forall a, f a = g a) -> mapM f l = mapM g l.
Proof.
  intros H. induction l as [|a l IH]; simpl; [reflexivity|].
  now rewrite H, IH.
Qed.

Lemma foldM_ext {A S : Type} (f g : S -> A -> result S) (l : list A) :
  (forall s a, f s a = g s a) -> forall s, foldM f s l = foldM g s l.
Proof.
  intros H. induction l as [|a l IH]; intros s; simpl; [reflexivity|].
  rewrite H. destruct (g s a); simpl; [apply IH | reflexivity].
Qed.

Lemma foldM_app {A S : Type} (f : S -> A -> result S) (l1 l2 : list A) :
  forall s, foldM f s (l1 ++ l2) = (s' <- foldM f s l1 ;; foldM f s' l2).
Proof.
  induction l1 as [|a l1 IH]; intros s; simpl; [reflexivity|].
  destruct (f s a); simpl; [apply IH | reflexivity].
Qed.

Lemma mapM_Raise {A B : Type} (f : A -> result B) (e : exn) (l : list A) :
  l <> [] -> (forall a, f a = Raise e) -> mapM f l = Raise e.
Proof.
  intros Hne H. destruct l as [|a l]; [congruence|]. simpl. now rewrite H.
Qed.

Section MoreAvailability.

Variable V : Type.

Lemma well_has_curve_sample_perm (d1 d2 : DataFrame V) (row : WellRecord)
    (curve : string) :
  data_columns d1 = data_columns d2 ->
  Permutation (samples d1) (samples d2) ->
  well_has_curve row d1 curve = well_has_curve row d2 curve.
Proof.
  intros Hcols Hperm. unfold well_has_curve, loc. rewrite Hcols.
  destruct (mem curve (data_columns d2)); [|reflexivity].
  cbn [bind]. rewrite !bool_index_map, !map_map, !forallb_map_filter.
  now rewrite (forallb_Permutation _ _ _ Hperm).
Qed.

Lemma well_has_curve_missing (d : DataFrame V) (row : WellRecord)
    (curve : string) :
  ~ In curve (data_columns d) ->
  well_has_curve row d curve = Raise (KeyError curve).
Proof.
  intros H. unfold well_has_curve, loc.
  destruct (mem curve (data_columns d)) eqn:E; [|reflexivity].
  apply mem_In in E. contradiction.
Qed.

Lemma set_rows_nonempty (rs : list WellRecord) (curve : string)
    (g : WellRecord -> bool) :
  rs <> [] -> set_rows rs curve (map g rs) <> [].
Proof. destruct rs; [congruence | discriminate]. Qed.

Lemma add_curve_inv (d : DataFrame V) (locations_df df : Locations)
    (curve : string) :
  rows locations_df <> [] ->
  add_curve d locations_df curve = Ok df ->
  In curve (data_columns d).
Proof.
  intros Hne H.
  destruct (mem curve (data_columns d)) eqn:E; [now apply mem_In|].
  assert (Hn : ~ In curve (data_columns d))
    by (intros Hin; apply mem_In in Hin; congruence).
  unfold add_curve in H.
  rewrite (@mapM_Raise _ _ _ (KeyError curve)) in H; [discriminate|assumption|].
  intros row. now apply well_has_curve_missing.
Qed.

Lemma add_curves_inv (d : DataFrame V) (catalog : list string) :
  forall locations_df df,
    rows locations_df <> [] ->
    add_curves catalog d locations_df = Ok df ->
    forall c, In c catalog -> In c (data_columns d).
Proof.
  induction catalog as [|a cs IH]; intros locs df Hne H c Hc; [destruct Hc|].
  unfold add_curves in H. simpl in H.
  destruct (add_curve d locs a) as [locs'|e] eqn:E; [|discriminate].
  assert (Ha : In a (data_columns d))
    by (eapply add_curve_inv; eassumption).
  destruct Hc as [<-|Hc]; [exact Ha|].
  rewrite add_curve_Ok in E by exact Ha. injection E as <-.
  simpl in H. eapply IH; [|exact H|exact Hc].
  simpl. now apply set_rows_nonempty.
Qed.

End MoreAvailability.

Lemma mem_app (x : string) (l1 l2 : list string) :
  mem x (l1 ++ l2) = (mem x l1 || mem x l2)%bool.
Proof. unfold mem. apply existsb_app. Qed.

Lemma mem_false (x : string) (l : list string) :
  mem x l = false <-> ~ In x l.
Proof.
  rewrite <- mem_In. destruct (mem x l); split; congruence.
Qed.

Lemma Forall2_map_r {A : Type} (R : A -> A -> Prop) (f : A -> A) (l : list A) :
  (forall a, R a (f a)) -> Forall2 R l (map f l).
Proof. intros H. induction l; simpl; constructor; auto. Qed.

Lemma Forall2_map_in {A : Type} (R : A -> A -> Prop) (f : A -> A)
    (l : list A) :
  (forall a, In a l -> R a (f a)) -> Forall2 R l (map f l).
Proof.
  induction l as [|a l IH]; intros H; simpl; constructor.
  - apply H. now left.
  - apply IH. intros b Hb. apply H. now right.
Qed.

Section CombinedTable.

Variable V : Type.

Lemma well_has_curve_inv (d : DataFrame V) (row : WellRecord)
    (curve : string) (b : bool) :
  well_has_curve row d curve = Ok b ->
  In curve (data_columns d) /\ b = present d (WELL row) curve.
Proof.
  intros H. destruct (mem curve (data_columns d)) eqn:E.
  - apply mem_In in E. split; [exact E|].
    rewrite well_has_curve_Ok in H by exact E. congruence.
  - apply mem_false in E.
    rewrite well_has_curve_missing in H by exact E. discriminate.
Qed.

Lemma present_reindex (cols : list string) (l : list (Sample V))
    (w c : string) :
  existsb (fun s => String.eqb (sWELL s) w && negb (isnull (reading s c)))%bool
          (map (reindex cols) l)
  = (mem c cols
     && existsb (fun s => String.eqb (sWELL s) w
                          && negb (isnull (reading s c)))%bool l)%bool.
Proof.
  induction l as [|s l IH]; simpl; [now rewrite andb_false_r|].
  rewrite IH. destruct (mem c cols); simpl; [reflexivity|].
  now rewrite andb_false_r.
Qed.

Lemma present_concat (train_df test_df : DataFrame V) (w c : string) :
  present (pd_concat train_df test_df) w c
  = ((mem c (data_columns train_df) && present train_df w c)
     || (mem c (data_columns test_df) && present test_df w c))%bool.
Proof.
  unfold present, pd_concat. simpl.
  now rewrite existsb_app, !present_reindex.
Qed.

Lemma mem_concat (train_df test_df : DataFrame V) (c : string) :
  mem c (data_columns (pd_concat train_df test_df))
  = (mem c (data_columns train_df) || mem c (data_columns test_df))%bool.
Proof.
  unfold pd_concat. simpl. rewrite mem_app.
  destruct (mem c (data_columns train_df)) eqn:E1; [reflexivity|]. simpl.
  apply eq_iff_eq_true. rewrite !mem_In, filter_In, negb_true_iff.
  intuition.
Qed.

Lemma well_has_curve_concat (train_df test_df : DataFrame V)
    (row : WellRecord) (c : string) :
  well_has_curve row (pd_concat train_df test_df) c
  = if (mem c (data_columns train_df) || mem c (data_columns test_df))%bool
    then Ok ((mem c (data_columns train_df)
              && present train_df (WELL row) c)
             || (mem c (data_columns test_df)
                 && present test_df (WELL row) c))%bool
    else Raise (KeyError c).
Proof.
  rewrite <- mem_concat.
  destruct (mem c (data_columns (pd_concat train_df test_df))) eqn:E.
  - apply mem_In in E. rewrite well_has_curve_Ok by exact E.
    now rewrite present_concat.
  - apply mem_false in E. now apply well_has_curve_missing.
Qed.

End CombinedTable.

(** X1.  The availability columns do not depend on the order of the rows of
    the measurement table: permuting its samples changes neither what
    [well_has_curve] returns (a flag or a [KeyError]) nor what the loop over
    the catalog leaves. *)
Theorem sample_order_is_irrelevant (V : Type) (d1 d2 : DataFrame V)
    (catalog : list string) (locations_df : Locations) :
  data_columns d1 = data_columns d2 ->
  Permutation (samples d1) (samples d2) ->
  (forall row curve,
      well_has_curve row d1 curve = well_has_curve row d2 curve)
  /\ add_curves catalog d1 locations_df = add_curves catalog d2 locations_df.
Proof.
  intros Hcols Hperm.
  assert (H : forall row curve,
             well_has_curve row d1 curve = well_has_curve row d2 curve)
    by (intros; now apply well_has_curve_sample_perm).
  split; [exact H|]. unfold add_curves. apply foldM_ext.
  intros locs c. unfold add_curve.
  rewrite (mapM_ext (fun row => well_has_curve row d1 c)
             (fun row => well_has_curve row d2 c)); [reflexivity|].
  intros row. apply H.
Qed.

Lemma sample_order_is_irrelevant_witness :
  data_columns three_logs = curves
  /\ Permutation (samples three_logs) (rev (samples three_logs))
  /\ add_curves curves three_logs three_wells
     = add_curves curves
         {| data_columns := curves; samples := rev (samples three_logs) |}
         three_wells.
Proof.
  split; [reflexivity|]. split; [apply Permutation_rev|].
  exact (proj2 (sample_order_is_irrelevant nat three_logs
                  {| data_columns := curves;
                     samples := rev (samples three_logs) |}
                  curves three_wells eq_refl
                  (Permutation_rev (samples three_logs)))).
Defined.

(** X2.  On the combined table [pd.concat([train_df, test_df])] a well has a
    curve exactly when it has it in one of the two tables: where both tables
    have the column the flag is the disjunction of the two flags, where one
    table only has the column the flag is that table's, and where neither has
    it the lookup raises [KeyError]. *)
Theorem combined_table_flag (V : Type) (train_df test_df : DataFrame V)
    (row : WellRecord) (curve : string) :
  (forall b1 b2,
      well_has_curve row train_df curve = Ok b1 ->
      well_has_curve row test_df curve = Ok b2 ->
      well_has_curve row (pd_concat train_df test_df) curve
      = Ok (b1 || b2)%bool)
  /\ (forall b1,
        well_has_curve row train_df curve = Ok b1 ->
        ~ In curve (data_columns test_df) ->
        well_has_curve row (pd_concat train_df test_df) curve = Ok b1)
  /\ (forall b2,
        ~ In curve (data_columns train_df) ->
        well_has_curve row test_df curve = Ok b2 ->
        well_has_curve row (pd_concat train_df test_df) curve = Ok b2)
  /\ (~ In curve (data_columns train_df) ->
      ~ In curve (data_columns test_df) ->
      well_has_curve row (pd_concat train_df test_df) curve
      = Raise (KeyError curve)).
Proof.
  rewrite well_has_curve_concat. repeat split.
  - intros b1 b2 H1 H2.
    apply well_has_curve_inv in H1. destruct H1 as [I1 ->].
    apply well_has_curve_inv in H2. destruct H2 as [I2 ->].
    apply mem_In in I1, I2. now rewrite I1, I2.
  - intros b1 H1 N2.
    apply well_has_curve_inv in H1. destruct H1 as [I1 ->].
    apply mem_In in I1. apply mem_false in N2. rewrite I1, N2. simpl.
    now rewrite orb_false_r.
  - intros b2 N1 H2.
    apply well_has_curve_inv in H2. destruct H2 as [I2 ->].
    apply mem_In in I2. apply mem_false in N1. now rewrite I2, N1.
  - intros N1 N2. apply mem_false in N1, N2. now rewrite N1, N2.
Qed.

Lemma combined_table_flag_witness :
  well_has_curve (well "B" "Test" []) train_logs "GR" = Ok false
  /\ well_has_curve (well "B" "Test" []) test_logs "GR" = Ok true
  /\ well_has_curve (well "B" "Test" []) (pd_concat train_logs test_logs) "GR"
     = Ok true
  /\ ~ In "LITHOLOGY" (data_columns test_logs)
  /\ well_has_curve (well "A" "Train" []) (pd_concat train_logs test_logs)
       "LITHOLOGY" = Ok true.
Proof.
  assert (N : ~ In "LITHOLOGY" (data_columns test_logs))
    by (apply mem_false; reflexivity).
  split; [reflexivity|]. split; [reflexivity|]. split.
  - exact (proj1 (combined_table_flag nat train_logs test_logs
                    (well "B" "Test" []) "GR") false true eq_refl eq_refl).
  - split; [exact N|].
    exact (proj1 (proj2 (combined_table_flag nat train_logs test_logs
                           (well "A" "Train" []) "LITHOLOGY"))
             true eq_refl N).
Defined.

Section LoopInvariants.

Variable V : Type.
Variable d : DataFrame V.

Lemma flagged_nonempty (catalog : list string) (rs : list WellRecord) :
  rs <> [] -> map (flagged d catalog) rs <> [].
Proof. destruct rs; [congruence | discriminate]. Qed.

Lemma add_curves_stops (l1 l2 : list string) (c : string)
    (locations_df : Locations) :
  rows locations_df <> [] ->
  (forall x, In x l1 -> In x (data_columns d)) ->
  ~ In c (data_columns d) ->
  add_curves (l1 ++ c :: l2) d locations_df = Raise (KeyError c).
Proof.
  intros Hne Hl1 Hc. unfold add_curves. rewrite foldM_app.
  destruct (add_curves_rows d l1 locations_df Hl1) as [df1 [Hdf1 Hrows]].
  unfold add_curves in Hdf1. rewrite Hdf1. cbn [bind foldM].
  unfold add_curve at 1.
  rewrite (mapM_Raise _ (KeyError c)); [reflexivity| |].
  - rewrite Hrows. now apply flagged_nonempty.
  - intros row. now apply well_has_curve_missing.
Qed.

Lemma first_missing (cols catalog : list string) :
  (forall c, In c catalog -> In c cols)
  \/ exists l1 c l2,
       catalog = l1 ++ c :: l2
       /\ (forall x, In x l1 -> In x cols) /\ ~ In c cols.
Proof.
  induction catalog as [|a cs IH]; [left; intros c []|].
  destruct (mem a cols) eqn:E.
  - apply mem_In in E. destruct IH as [IH|[l1 [c [l2 [-> [H1 H2]]]]]].
    + left. intros c [<-|Hc]; auto.
    + right. exists (a :: l1), c, l2. split; [reflexivity|].
      split; [|exact H2]. intros x [<-|Hx]; auto.
  - apply mem_false in E. right. exists [], a, cs.
    split; [reflexivity|]. split; [intros x []|exact E].
Qed.

Lemma add_curves_new_columns (catalog : list string) :
  forall locations_df df,
    add_curves catalog d locations_df = Ok df ->
    exists new,
      columns df = columns locations_df ++ new
      /\ NoDup new
      /\ forall x, In x new <-> In x catalog /\ ~ In x (columns locations_df).
Proof.
  induction catalog as [|c cs IH]; intros locs df H.
  - injection H as <-. exists []. rewrite app_nil_r.
    split; [reflexivity|]. split; [constructor|]. simpl. tauto.
  - unfold add_curves in H. simpl in H. unfold add_curve in H at 1.
    destruct (mapM _ (rows locs)) as [series|e]; [|discriminate].
    simpl in H. destruct (IH _ _ H) as [new [Hcols [Hnd Hin]]].
    unfold setitem in Hcols, Hin. simpl in Hcols, Hin.
    destruct (mem c (columns locs)) eqn:E.
    + apply mem_In in E. exists new. split; [exact Hcols|].
      split; [exact Hnd|]. intros x. rewrite Hin. simpl.
      split; [tauto|]. intros [[<-|Hx] Hn]; [contradiction|tauto].
    + apply mem_false in E. exists (c :: new).
      split; [now rewrite Hcols, <- app_assoc|]. split.
      * constructor; [|exact Hnd]. intros Hc. apply Hin in Hc.
        destruct Hc as [_ Hc]. apply Hc, in_or_app. right. now left.
      * intros x. simpl. rewrite Hin, in_app_iff. simpl.
        destruct (string_dec c x) as [<-|Hne]; [tauto|]. tauto.
Qed.

End LoopInvariants.

(** X3.  On a table with at least one well, the loop over the catalog ends
    without an exception exactly when the measurement table has a column for
    every curve of the catalog; otherwise it raises [KeyError] for the first
    curve of the catalog that is not a column. *)
Theorem catalog_needs_columns (V : Type) (catalog : list string)
    (well_data_df : DataFrame V) (locations_df : Locations) :
  rows locations_df <> [] ->
  ((exists df, add_curves catalog well_data_df locations_df = Ok df)
   <-> forall c, In c catalog -> In c (data_columns well_data_df))
  /\ forall l1 c l2,
       catalog = l1 ++ c :: l2 ->
       (forall x, In x l1 -> In x (data_columns well_data_df)) ->
       ~ In c (data_columns well_data_df) ->
       add_curves catalog well_data_df locations_df = Raise (KeyError c).
Proof.
  intros Hne. split.
  - split.
    + intros [df Hdf]. exact (add_curves_inv V well_data_df catalog
                                locations_df df Hne Hdf).
    + intros Hcols.
      destruct (add_curves_rows well_data_df catalog locations_df Hcols)
        as [df [Hdf _]].
      now exists df.
  - intros l1 c l2 -> H1 Hc. now apply add_curves_stops.
Qed.

Lemma catalog_needs_columns_witness :
  rows three_wells <> []
  /\ (forall x, In x ["GR"] -> In x (data_columns three_logs))
  /\ ~ In "GAMMA" (data_columns three_logs)
  /\ add_curves ["GR"; "GAMMA"; "RHOB"] three_logs three_wells
     = Raise (KeyError "GAMMA").
Proof.
  assert (Hne : rows three_wells <> []) by discriminate.
  assert (H1 : forall x, In x ["GR"] -> In x (data_columns three_logs))
    by (apply missing_label_none; reflexivity).
  assert (Hc : ~ In "GAMMA" (data_columns three_logs))
    by (apply mem_false; reflexivity).
  split; [exact Hne|]. split; [exact H1|]. split; [exact Hc|].
  exact (proj2 (catalog_needs_columns nat ["GR"; "GAMMA"; "RHOB"]
                  three_logs three_wells Hne)
           ["GR"] "GAMMA" ["RHOB"] eq_refl H1 Hc).
Defined.

(** X4.  The loop over the catalog keeps the table's shape: the wells, their
    order, their datasets and their cells in the columns that are not in the
    catalog are unchanged, the columns the table had stay in place, and each
    curve of the catalog that was not a column is appended once. *)
Theorem loop_keeps_other_columns (V : Type) (catalog : list string)
    (well_data_df : DataFrame V) (locations_df df : Locations) :
  rows locations_df <> [] ->
  add_curves catalog well_data_df locations_df = Ok df ->
  Forall2 (fun r r' => WELL r' = WELL r /\ Dataset r' = Dataset r
                       /\ forall c, ~ In c catalog -> has r' c = has r c)
          (rows locations_df) (rows df)
  /\ exists new,
       columns df = columns locations_df ++ new
       /\ NoDup new
       /\ forall x, In x new <-> In x catalog /\ ~ In x (columns locations_df).
Proof.
  intros Hne Hdf. split.
  - pose proof (add_curves_inv V well_data_df catalog locations_df df
                  Hne Hdf) as Hcols.
    destruct (add_curves_rows well_data_df catalog locations_df Hcols)
      as [df0 [Hdf0 Hrows]].
    rewrite Hdf in Hdf0. injection Hdf0 as <-. rewrite Hrows.
    apply Forall2_map_r. intros r.
    split; [apply flagged_WELL|]. split; [apply flagged_Dataset|].
    intros c Hc. rewrite flagged_has. apply mem_false in Hc. now rewrite Hc.
  - exact (add_curves_new_columns V well_data_df catalog locations_df df Hdf).
Qed.

Lemma loop_keeps_other_columns_witness :
  rows two_wells <> []
  /\ exists df,
       add_curves ["RHOB"; "NPHI"] three_logs two_wells = Ok df
       /\ Forall2 (fun r r' => WELL r' = WELL r /\ Dataset r' = Dataset r
                               /\ forall c, ~ In c ["RHOB"; "NPHI"] ->
                                            has r' c = has r c)
                  (rows two_wells) (rows df)
       /\ exists new,
            columns df = columns two_wells ++ new
            /\ NoDup new
            /\ forall x, In x new
                         <-> In x ["RHOB"; "NPHI"] /\ ~ In x (columns two_wells).
Proof.
  assert (Hne : rows two_wells <> []) by discriminate.
  split; [exact Hne|].
  destruct (add_curves ["RHOB"; "NPHI"] three_logs two_wells) as [df|e] eqn:E;
    [|discriminate E].
  exists df. split; [reflexivity|].
  exact (loop_keeps_other_columns nat ["RHOB"; "NPHI"] three_logs
           two_wells df Hne E).
Defined.

(** X5.  Running the loop again on the table it produced changes nothing: it
    succeeds, the columns are the same and every row has the same cells. *)
Theorem loop_is_idempotent (V : Type) (catalog : list string)
    (well_data_df : DataFrame V) (locations_df df : Locations) :
  rows locations_df <> [] ->
  add_curves catalog well_data_df locations_df = Ok df ->
  exists df',
    add_curves catalog well_data_df df = Ok df'
    /\ columns df' = columns df
    /\ Forall2 same_row (rows df) (rows df').
Proof.
  intros Hne Hdf.
  pose proof (add_curves_inv V well_data_df catalog locations_df df Hne Hdf)
    as Hcols.
  destruct (add_curves_rows well_data_df catalog df Hcols)
    as [df' [Hdf' Hrows']].
  exists df'. split; [exact Hdf'|]. split.
  - destruct (add_curves_new_columns V well_data_df catalog df df' Hdf')
      as [new [Hc [_ Hin]]].
    destruct new as [|x new]; [now rewrite Hc, app_nil_r|].
    destruct (proj1 (Hin x) (or_introl eq_refl)) as [Hx Hn].
    destruct Hn.
    apply (proj2 (@add_curves_columns _ _ _ _ _ Hdf x)). now right.
  - destruct (add_curves_rows well_data_df catalog locations_df Hcols)
      as [df0 [Hdf0 Hrows]].
    rewrite Hdf in Hdf0. injection Hdf0 as <-.
    rewrite Hrows'. apply Forall2_map_in. intros r H. unfold same_row.
    rewrite flagged_WELL, flagged_Dataset.
    split; [reflexivity|]. split; [reflexivity|].
    intros c. rewrite flagged_has.
    destruct (mem c catalog) eqn:E; [|reflexivity].
    rewrite Hrows in H. apply in_map_iff in H. destruct H as [r0 [<- _]].
    now rewrite flagged_has, E, flagged_WELL.
Qed.

Lemma loop_is_idempotent_witness :
  rows three_wells <> []
  /\ exists df,
       add_curves ["GR"; "RHOB"] three_logs three_wells = Ok df
       /\ exists df',
            add_curves ["GR"; "RHOB"] three_logs df = Ok df'
            /\ columns df' = columns df
            /\ Forall2 same_row (rows df) (rows df').
Proof.
  assert (Hne : rows three_wells <> []) by discriminate.
  split; [exact Hne|].
  destruct (add_curves ["GR"; "RHOB"] three_logs three_wells)
    as [df|e] eqn:E; [|discriminate E].
  exists df. split; [reflexivity|].
  exact (loop_is_idempotent nat ["GR"; "RHOB"] three_logs three_wells df
           Hne E).
Defined.

(** ** More on the selection callback *)





Lemma Subseq_In {A : Type} (s l : list A) (x : A) :
  Subseq s l -> In x s -> In x l.
Proof.
  induction 1 as [|y s l S IH|y s l S IH]; simpl; intros Hin.
  - exact Hin.
  - right. now apply IH.
  - destruct Hin as [<-|Hin]; [now left|right; now apply IH].
Qed.

Lemma Subseq_NoDup {A : Type} (s l : list A) :
  Subseq s l -> NoDup l -> NoDup s.
Proof.
  induction 1; intros Hnd; [constructor| |].
  - inversion Hnd; subst. auto.
  - inversion Hnd; subst. constructor; [|auto].
    intros Hin. match goal with Hn : ~ In _ _ |- _ => apply Hn end.
    eapply Subseq_In; eassumption.
Qed.





(** X8.  A well name is listed exactly when the table has a row of that name
    whose cell is [True] in every required column, whose dataset is checked,
    and, when the selection event names wells, which is one of them. *)
Theorem listed_iff_row_qualifies (locations_df : Locations)
    (curves datasets : list string) (selected_items : option SelectedData)
    (lasso_wells : option (list string)) :
  (forall c, In c curves -> In c (columns locations_df)) ->
  lasso selected_items = Ok lasso_wells ->
  exists names,
    selected_wells locations_df curves datasets selected_items = Ok names
    /\ forall w,
         In w names
         <-> exists r,
               In r (rows locations_df) /\ WELL r = w
               /\ (forall c, In c curves -> has r c = true)
               /\ In (Dataset r) datasets
               /\ (forall n ns, lasso_wells = Some (n :: ns) -> In w (n :: ns)).
Proof.
  intros Hcols Hl. unfold selected_wells.
  rewrite (@selected_frame_Ok _ _ _ _ _ Hcols Hl). cbn [bind].
  eexists. split; [reflexivity|]. intros w.
  rewrite in_map_iff. split.
  - intros [r [Hw Hr]]. apply filter_In in Hr. destruct Hr as [Hin Hq].
    apply andb_true_iff in Hq. destruct Hq as [Hq Hch].
    unfold qualifies in Hq. apply andb_true_iff in Hq.
    destruct Hq as [Hall Hds]. rewrite forallb_forall in Hall.
    exists r. repeat split; try assumption.
    + now apply mem_In.
    + intros n ns ->. cbn [chosen] in Hch. apply mem_In in Hch.
      now rewrite <- Hw.
  - intros [r [Hin [Hw [Hall [Hds Hlw]]]]]. exists r. split; [exact Hw|].
    apply filter_In. split; [exact Hin|]. apply andb_true_iff. split.
    + unfold qualifies. apply andb_true_iff. split.
      * now apply forallb_forall.
      * now apply mem_In.
    + destruct lasso_wells as [[|n ns]|]; try reflexivity.
      cbn [chosen]. apply mem_In. rewrite Hw. now apply (Hlw n ns).
Qed.

Lemma listed_iff_row_qualifies_witness :
  (forall c, In c ["GR"; "RHOB"] -> In c (columns two_wells))
  /\ lasso (selection ["B"; "Z"]) = Ok (Some ["B"; "Z"])
  /\ exists names,
       selected_wells two_wells ["GR"; "RHOB"] ["Test"]
         (selection ["B"; "Z"]) = Ok names
       /\ forall w,
            In w names
            <-> exists r,
                  In r (rows two_wells) /\ WELL r = w
                  /\ (forall c, In c ["GR"; "RHOB"] -> has r c = true)
                  /\ In (Dataset r) ["Test"]
                  /\ (forall n ns, Some ["B"; "Z"] = Some (n :: ns) ->
                                   In w (n :: ns)).
Proof.
  assert (H : forall c, In c ["GR"; "RHOB"] -> In c (columns two_wells))
    by (apply missing_label_none; reflexivity).
  split; [exact H|]. split; [reflexivity|].
  exact (listed_iff_row_qualifies two_wells ["GR"; "RHOB"] ["Test"]
           (selection ["B"; "Z"]) (Some ["B"; "Z"]) H eq_refl).
Defined.

(** X9.  The list never has more names than the table has rows, and when the
    well names of the table are distinct no name is listed twice. *)
Theorem listed_once (locations_df : Locations)
    (curves datasets : list string) (selected_items : option SelectedData)
    (lasso_wells : option (list string)) :
  (forall c, In c curves -> In c (columns locations_df)) ->
  lasso selected_items = Ok lasso_wells ->
  exists names,
    selected_wells locations_df curves datasets selected_items = Ok names
    /\ List.length names <= List.length (rows locations_df)
    /\ (NoDup (map WELL (rows locations_df)) -> NoDup names).
Proof.
  intros Hcols Hl. unfold selected_wells.
  rewrite (@selected_frame_Ok _ _ _ _ _ Hcols Hl). cbn [bind].
  eexists. split; [reflexivity|].
  assert (S : Subseq
            (map WELL (filter (fun r => qualifies curves datasets r
                                        && chosen lasso_wells r)%bool
                              (rows locations_df)))
            (map WELL (rows locations_df)))
    by apply Subseq_map, Subseq_filter.
  split.
  - rewrite <- (length_map WELL (rows locations_df)).
    exact (Subseq_length S).
  - exact (Subseq_NoDup _ _ S).
Qed.

Lemma listed_once_witness :
  (forall c, In c ["GR"] -> In c (columns two_wells))
  /\ lasso None = Ok None
  /\ exists names,
       selected_wells two_wells ["GR"] ["Train"; "Test"] None = Ok names
       /\ List.length names <= List.length (rows two_wells)
       /\ (NoDup (map WELL (rows two_wells)) -> NoDup names).
Proof.
  assert (H : forall c, In c ["GR"] -> In c (columns two_wells))
    by (apply missing_label_none; reflexivity).
  split; [exact H|]. split; [reflexivity|].
  exact (listed_once two_wells ["GR"] ["Train"; "Test"] None None H eq_refl).
Defined.

Lemma chosen_WELL (lasso_wells : option (list string)) (r r' : WellRecord) :
  WELL r = WELL r' -> chosen lasso_wells r = chosen lasso_wells r'.
Proof.
  intros H. destruct lasso_wells as [[|n ns]|]; try reflexivity.
  cbn [chosen]. now rewrite H.
Qed.

Lemma filter_length_disjoint {A : Type} (f g : A -> bool) (l : list A) :
  (forall x, In x l -> f x = true -> g x = false) ->
  List.length (filter (fun x => f x || g x)%bool l)
  = List.length (filter f l) + List.length (filter g l).
Proof.
  induction l as [|a l IH]; intros H; simpl; [reflexivity|].
  assert (IH' : List.length (filter (fun x => f x || g x)%bool l)
                = List.length (filter f l) + List.length (filter g l))
    by (apply IH; intros x Hx; apply H; now right).
  destruct (f a) eqn:Ef; simpl.
  - rewrite (H a (or_introl eq_refl) Ef). simpl. now rewrite IH'.
  - destruct (g a); simpl; rewrite IH'; lia.
Qed.

Lemma qualifies_ext (curves1 curves2 datasets1 datasets2 : list string)
    (r : WellRecord) :
  (forall c, In c curves1 <-> In c curves2) ->
  (forall x, In x datasets1 <-> In x datasets2) ->
  qualifies curves1 datasets1 r = qualifies curves2 datasets2 r.
Proof.
  intros Hc Hd. unfold qualifies. f_equal.
  - apply eq_iff_eq_true. rewrite !forallb_forall.
    split; intros H c Hin; apply H, Hc, Hin.
  - now apply mem_ext.
Qed.

(** X10.  Requiring the curves of two lists is filtering twice: the frame
    selected for [curves1 ++ curves2] is the frame selected for [curves1],
    filtered by the columns of [curves2]. *)
Theorem required_curves_compose (locations_df : Locations)
    (curves1 curves2 datasets : list string)
    (selected_items : option SelectedData)
    (lasso_wells : option (list string)) :
  (forall c, In c (curves1 ++ curves2) -> In c (columns locations_df)) ->
  lasso selected_items = Ok lasso_wells ->
  exists dff1,
    selected_frame locations_df curves1 datasets selected_items = Ok dff1
    /\ selected_frame locations_df (curves1 ++ curves2) datasets
         selected_items
       = Ok (filter (fun r => forallb (has r) curves2) dff1).
Proof.
  intros Hcols Hl.
  assert (H1 : forall c, In c curves1 -> In c (columns locations_df))
    by (intros c Hc; apply Hcols, in_or_app; now left).
  rewrite (@selected_frame_Ok _ _ _ _ _ H1 Hl).
  rewrite (@selected_frame_Ok _ _ _ _ _ Hcols Hl).
  eexists. split; [reflexivity|]. f_equal.
  rewrite filter_filter. apply filter_ext. intros r. unfold qualifies.
  rewrite forallb_app.
  destruct (forallb (has r) curves1), (forallb (has r) curves2),
    (mem (Dataset r) datasets), (chosen lasso_wells r); reflexivity.
Qed.

Lemma required_curves_compose_witness :
  (forall c, In c (["GR"] ++ ["RHOB"]) -> In c (columns two_wells))
  /\ lasso None = Ok None
  /\ exists dff1,
       selected_frame two_wells ["GR"] ["Train"; "Test"] None = Ok dff1
       /\ selected_frame two_wells (["GR"] ++ ["RHOB"]) ["Train"; "Test"] None
          = Ok (filter (fun r => forallb (has r) ["RHOB"]) dff1).
Proof.
  assert (H : forall c, In c (["GR"] ++ ["RHOB"]) -> In c (columns two_wells))
    by (apply missing_label_none; reflexivity).
  split; [exact H|]. split; [reflexivity|].
  exact (required_curves_compose two_wells ["GR"] ["RHOB"] ["Train"; "Test"]
           None None H eq_refl).
Defined.

(** X11.  When the required curves are columns, only the set of required
    curves and the set of checked datasets matter: lists with the same
    elements, in any order and with any repetition, give the same text. *)
Theorem criteria_are_sets (locations_df : Locations)
    (curves1 curves2 datasets1 datasets2 : list string)
    (selected_items : option SelectedData) :
  (forall c, In c curves1 -> In c (columns locations_df)) ->
  (forall c, In c curves1 <-> In c curves2) ->
  (forall x, In x datasets1 <-> In x datasets2) ->
  update_output locations_df curves1 datasets1 selected_items
  = update_output locations_df curves2 datasets2 selected_items.
Proof.
  intros H1 Hc Hd.
  assert (H2 : forall c, In c curves2 -> In c (columns locations_df))
    by (intros c Hin; apply H1, Hc, Hin).
  unfold update_output. rewrite !selected_frame_eq by assumption.
  destruct (lasso selected_items) as [lw|e]; [|reflexivity].
  cbn [bind]. do 3 f_equal. apply filter_ext. intros r.
  now apply qualifies_ext.
Qed.

Lemma criteria_are_sets_witness :
  (forall c, In c ["GR"; "RHOB"] -> In c (columns two_wells))
  /\ (forall c, In c ["GR"; "RHOB"] <-> In c ["RHOB"; "GR"; "RHOB"])
  /\ (forall x, In x ["Train"; "Test"] <-> In x ["Test"; "Train"])
  /\ update_output two_wells ["GR"; "RHOB"] ["Train"; "Test"] None
     = update_output two_wells ["RHOB"; "GR"; "RHOB"] ["Test"; "Train"] None.
Proof.
  assert (H : forall c, In c ["GR"; "RHOB"] -> In c (columns two_wells))
    by (apply missing_label_none; reflexivity).
  assert (Hc : forall c, In c ["GR"; "RHOB"] <-> In c ["RHOB"; "GR"; "RHOB"])
    by (intros c; simpl; tauto).
  assert (Hd : forall x, In x ["Train"; "Test"] <-> In x ["Test"; "Train"])
    by (intros x; simpl; tauto).
  split; [exact H|]. split; [exact Hc|]. split; [exact Hd|].
  exact (criteria_are_sets two_wells ["GR"; "RHOB"] ["RHOB"; "GR"; "RHOB"]
           ["Train"; "Test"] ["Test"; "Train"] None H Hc Hd).
Defined.

(** X12.  A selection event can only narrow the list: the wells listed with
    an event are the wells listed without one, with some removed and the
    order kept. *)
Theorem lasso_only_narrows (locations_df : Locations)
    (curves datasets : list string) (selected_items : option SelectedData)
    (lasso_wells : option (list string)) :
  (forall c, In c curves -> In c (columns locations_df)) ->
  lasso selected_items = Ok lasso_wells ->
  exists every picked,
    selected_wells locations_df curves datasets None = Ok every
    /\ selected_wells locations_df curves datasets selected_items = Ok picked
    /\ Subseq picked every.
Proof.
  intros Hcols Hl. unfold selected_wells.
  rewrite (@selected_frame_Ok _ _ _ _ _ Hcols Hl).
  rewrite (@selected_frame_Ok _ _ _ None None Hcols eq_refl).
  cbn [bind]. do 2 eexists. split; [reflexivity|]. split; [reflexivity|].
  apply Subseq_map, Subseq_filter_mono. intros r _ H.
  apply andb_true_iff in H. destruct H as [Hq _].
  now rewrite Hq.
Qed.

Lemma lasso_only_narrows_witness :
  (forall c, In c ["GR"] -> In c (columns two_wells))
  /\ lasso (selection ["B"; "Z"]) = Ok (Some ["B"; "Z"])
  /\ exists every picked,
       selected_wells two_wells ["GR"] ["Train"; "Test"] None = Ok every
       /\ selected_wells two_wells ["GR"] ["Train"; "Test"]
            (selection ["B"; "Z"]) = Ok picked
       /\ Subseq picked every.
Proof.
  assert (H : forall c, In c ["GR"] -> In c (columns two_wells))
    by (apply missing_label_none; reflexivity).
  split; [exact H|]. split; [reflexivity|].
  exact (lasso_only_narrows two_wells ["GR"] ["Train"; "Test"]
           (selection ["B"; "Z"]) (Some ["B"; "Z"]) H eq_refl).
Defined.

(** X13.  Selecting on the map the wells that are listed changes nothing: a
    selection event whose points name exactly the wells of the current list
    gives the same text again. *)
Theorem reselecting_listed_wells (locations_df : Locations)
    (curves datasets : list string) (selected_items again : option SelectedData)
    (lasso_wells : option (list string)) (names : list string) :
  (forall c, In c curves -> In c (columns locations_df)) ->
  lasso selected_items = Ok lasso_wells ->
  selected_wells locations_df curves datasets selected_items = Ok names ->
  lasso again = Ok (Some names) ->
  update_output locations_df curves datasets again
  = update_output locations_df curves datasets selected_items.
Proof.
  intros Hcols Hl Hnames Hagain.
  pose proof (lasso_Some _ Hagain) as Hne.
  unfold selected_wells in Hnames. unfold update_output.
  rewrite (@selected_frame_Ok _ _ _ _ _ Hcols Hl) in *.
  cbn [bind] in Hnames. injection Hnames as Hnames.
  rewrite (@selected_frame_Ok _ _ _ _ (Some names) Hcols Hagain).
  cbn [bind]. do 2 f_equal. apply filter_ext_in. intros r Hr.
  destruct (qualifies curves datasets r) eqn:Hq; [|reflexivity].
  cbn [andb].
  assert (Hch : chosen (Some names) r = mem (WELL r) names)
    by (destruct names; [congruence|reflexivity]).
  rewrite Hch. apply eq_iff_eq_true. rewrite mem_In, <- Hnames, in_map_iff.
  split.
  - intros [r' [Hw Hin]]. apply filter_In in Hin. destruct Hin as [_ Hb].
    apply andb_true_iff in Hb. destruct Hb as [_ Hb].
    now rewrite <- (chosen_WELL lasso_wells r' r Hw).
  - intros Hb. exists r. split; [reflexivity|]. apply filter_In.
    split; [exact Hr|]. now rewrite Hq, Hb.
Qed.

Lemma reselecting_listed_wells_witness :
  (forall c, In c ["GR"] -> In c (columns two_wells))
  /\ lasso (selection ["B"; "Z"]) = Ok (Some ["B"; "Z"])
  /\ selected_wells two_wells ["GR"] ["Train"; "Test"] (selection ["B"; "Z"])
     = Ok ["B"]
  /\ lasso (Some {| points := [{| customdata := ["B"; "Equinor"] |}] |})
     = Ok (Some ["B"])
  /\ update_output two_wells ["GR"] ["Train"; "Test"]
       (Some {| points := [{| customdata := ["B"; "Equinor"] |}] |})
     = update_output two_wells ["GR"] ["Train"; "Test"]
         (selection ["B"; "Z"]).
Proof.
  assert (H : forall c, In c ["GR"] -> In c (columns two_wells))
    by (apply missing_label_none; reflexivity).
  split; [exact H|]. split; [reflexivity|]. split; [reflexivity|].
  split; [reflexivity|].
  exact (reselecting_listed_wells two_wells ["GR"] ["Train"; "Test"]
           (selection ["B"; "Z"])
           (Some {| points := [{| customdata := ["B"; "Equinor"] |}] |})
           (Some ["B"; "Z"]) ["B"] H eq_refl eq_refl eq_refl).
Defined.

(** X14.  The counts of disjoint dataset choices add up: when no dataset is
    in both lists, checking the datasets of the two lists together lists as
    many wells as the two lists do apart. *)
Theorem disjoint_datasets_add_up (locations_df : Locations)
    (curves datasets1 datasets2 : list string)
    (selected_items : option SelectedData)
    (lasso_wells : option (list string)) :
  (forall c, In c curves -> In c (columns locations_df)) ->
  lasso selected_items = Ok lasso_wells ->
  (forall x, In x datasets1 -> ~ In x datasets2) ->
  exists names1 names2 names,
    selected_wells locations_df curves datasets1 selected_items = Ok names1
    /\ selected_wells locations_df curves datasets2 selected_items = Ok names2
    /\ selected_wells locations_df curves (datasets1 ++ datasets2)
         selected_items = Ok names
    /\ List.length names = List.length names1 + List.length names2.
Proof.
  intros Hcols Hl Hdis. unfold selected_wells.
  rewrite !(@selected_frame_Ok _ _ _ _ _ Hcols Hl). cbn [bind].
  do 3 eexists. split; [reflexivity|]. split; [reflexivity|].
  split; [reflexivity|]. rewrite !length_map.
  rewrite <- filter_length_disjoint.
  - f_equal. apply filter_ext. intros r. unfold qualifies. rewrite mem_app.
    destruct (forallb (has r) curves), (mem (Dataset r) datasets1),
      (mem (Dataset r) datasets2), (chosen lasso_wells r); reflexivity.
  - intros r _ H. apply andb_true_iff in H. destruct H as [Hq _].
    unfold qualifies in *. apply andb_true_iff in Hq. destruct Hq as [_ Hd].
    apply mem_In, Hdis, mem_false in Hd. rewrite Hd.
    now rewrite andb_false_r.
Qed.

Lemma disjoint_datasets_add_up_witness :
  (forall c, In c ["GR"] -> In c (columns two_wells))
  /\ lasso None = Ok None
  /\ (forall x, In x ["Train"] -> ~ In x ["Test"])
  /\ exists names1 names2 names,
       selected_wells two_wells ["GR"] ["Train"] None = Ok names1
       /\ selected_wells two_wells ["GR"] ["Test"] None = Ok names2
       /\ selected_wells two_wells ["GR"] (["Train"] ++ ["Test"]) None
          = Ok names
       /\ List.length names = List.length names1 + List.length names2.
Proof.
  assert (H : forall c, In c ["GR"] -> In c (columns two_wells))
    by (apply missing_label_none; reflexivity).
  assert (Hd : forall x, In x ["Train"] -> ~ In x ["Test"])
    by (intros x [<-|[]] [E|[]]; discriminate E).
  split; [exact H|]. split; [reflexivity|]. split; [exact Hd|].
  exact (disjoint_datasets_add_up two_wells ["GR"] ["Train"] ["Test"]
           None None H eq_refl Hd).
Defined.

(** ** The map callback *)

Lemma bool_index_isin_self (dff : list WellRecord) :
  bool_index dff (isin (map WELL dff) (map WELL dff)) = dff.
Proof.
  rewrite isin_map, bool_index_map. apply filter_all.
  intros r Hr. apply mem_In. now apply in_map.
Qed.



(** X15.  The two callbacks agree: without a selection event, the text lists
    exactly the wells the map draws, in the same order, and [0 wells] when the
    map is the one centred on the field; and [update_output] raises what
    [update_figure] raises. *)
Theorem map_and_list_agree (locations_df : Locations)
    (curves datasets : list string) :
  update_output locations_df curves datasets None
  = (fig <- update_figure locations_df curves datasets ;;
     Ok (render (plotted fig)))
  /\ selected_wells locations_df curves datasets None
     = (fig <- update_figure locations_df curves datasets ;;
        Ok (map WELL (plotted fig))).
Proof.
  unfold update_output, selected_wells, selected_frame, update_figure.
  destruct (getitem_values locations_df curves) as [values|e];
    cbn [bind lasso lasso_or_all]; [|split; reflexivity].
  set (dff0 := bool_index (rows locations_df) (all_axis1 values)).
  set (dff := bool_index dff0 (isin (map Dataset dff0) datasets)).
  rewrite bool_index_isin_self.
  assert (E : plotted (if Nat.eqb (List.length dff) 0
                       then CentreMap else WellsMap dff) = dff)
    by (destruct dff; reflexivity).
  rewrite E. split; reflexivity.
Qed.



(** X17.  The two halves of the notebook together: on the table the loop
    over the catalog produced, with required curves taken from the catalog
    and no selection event, [update_output] raises nothing, and a name is
    listed exactly when a well of that name has a checked dataset and, for
    every required curve, a sample with a reading in the measurement
    table. *)
Theorem listed_iff_readings (V : Type) (catalog : list string)
    (well_data_df : DataFrame V) (locations_df df : Locations)
    (curves datasets : list string) :
  rows locations_df <> [] ->
  add_curves catalog well_data_df locations_df = Ok df ->
  incl curves catalog ->
  exists names,
    selected_wells df curves datasets None = Ok names
    /\ update_output df curves datasets None
       = Ok (output_text (List.length names) ++ well_list_text names)%string
    /\ forall w,
         In w names
         <-> exists r,
               In r (rows locations_df) /\ WELL r = w
               /\ In (Dataset r) datasets
               /\ forall c, In c curves -> has_reading well_data_df w c.
Proof.
  intros Hne Hdf Hincl.
  pose proof (add_curves_inv V well_data_df catalog locations_df df Hne Hdf)
    as Hdata.
  destruct (add_curves_rows well_data_df catalog locations_df Hdata)
    as [df0 [Hdf0 Hrows]].
  rewrite Hdf in Hdf0. injection Hdf0 as <-.
  assert (Hcols : forall c, In c curves -> In c (columns df)).
  { intros c Hc. apply (proj2 (@add_curves_columns _ _ _ _ _ Hdf c)).
    right. now apply Hincl. }
  unfold selected_wells, update_output.
  rewrite (@selected_frame_Ok _ _ _ None None Hcols eq_refl). cbn [bind].
  eexists. split; [reflexivity|]. split.
  { unfold render. now rewrite length_map. }
  intros w. rewrite in_map_iff. rewrite Hrows.
  assert (Hflag : forall r c, In c curves ->
            has (flagged well_data_df catalog r) c
            = present well_data_df (WELL r) c).
  { intros r c Hc. rewrite flagged_has.
    apply Hincl, mem_In in Hc. now rewrite Hc. }
  split.
  - intros [r' [Hw Hin]]. apply filter_In in Hin. destruct Hin as [Hin Hq].
    apply in_map_iff in Hin. destruct Hin as [r [<- Hr]].
    rewrite flagged_WELL in Hw. rewrite andb_true_r in Hq.
    unfold qualifies in Hq. apply andb_true_iff in Hq.
    destruct Hq as [Hall Hd]. rewrite flagged_Dataset in Hd.
    rewrite forallb_forall in Hall.
    exists r. split; [exact Hr|]. split; [exact Hw|].
    split; [now apply mem_In|]. intros c Hc. rewrite <- Hw.
    apply present_true. rewrite <- (Hflag r c Hc). now apply Hall.
  - intros [r [Hr [Hw [Hd Hall]]]].
    exists (flagged well_data_df catalog r).
    rewrite flagged_WELL. split; [exact Hw|]. apply filter_In.
    split; [now apply in_map|]. rewrite andb_true_r.
    unfold qualifies. rewrite flagged_Dataset. apply andb_true_iff. split.
    + apply forallb_forall. intros c Hc. rewrite (Hflag r c Hc).
      apply present_true. rewrite Hw. now apply Hall.
    + now apply mem_In.
Qed.

Lemma listed_iff_readings_witness :
  rows three_wells <> []
  /\ incl ["GR"] ["GR"; "RHOB"]
  /\ exists df,
       add_curves ["GR"; "RHOB"] three_logs three_wells = Ok df
       /\ exists names,
            selected_wells df ["GR"] ["Train"; "Test"] None = Ok names
            /\ update_output df ["GR"] ["Train"; "Test"] None
               = Ok (output_text (List.length names)
                       ++ well_list_text names)%string
            /\ forall w,
                 In w names
                 <-> exists r,
                       In r (rows three_wells) /\ WELL r = w
                       /\ In (Dataset r) ["Train"; "Test"]
                       /\ forall c, In c ["GR"] -> has_reading three_logs w c.
Proof.
  assert (Hne : rows three_wells <> []) by discriminate.
  assert (Hincl : incl ["GR"] ["GR"; "RHOB"])
    by (intros c [<-|[]]; now left).
  split; [exact Hne|]. split; [exact Hincl|].
  destruct (add_curves ["GR"; "RHOB"] three_logs three_wells)
    as [df|e] eqn:E; [|discriminate E].
  exists df. split; [reflexivity|].
  exact (listed_iff_readings nat ["GR"; "RHOB"] three_logs three_wells df
           ["GR"] ["Train"; "Test"] Hne E Hincl).
Defined.

(** ** Further examples *)

Example ex_built_table :
  (df <- add_curves curves three_logs three_wells ;;
   update_output df ["GR"] ["Train"; "Test"] None)
  = Ok (nl ++ "You have selected 1 wells." ++ nl ++ nl
           ++ "selected_wells = ['A']")%string.
Proof. vm_compute. reflexivity. Qed.

Example ex_reselecting_nothing_shows_all :
  selected_wells two_wells ["GR"] ["Train"; "Test"] (selection ["Z"]) = Ok []
  /\ selected_wells two_wells ["GR"] ["Train"; "Test"] (selection [])
     = Ok ["A"; "B"].
Proof. split; reflexivity. Qed.

Example ex_centre_map :
  update_figure two_wells ["GR"] [] = Ok CentreMap.
Proof. reflexivity. Qed.
